(** * ECS mapping front end: path extraction, batch payload, mappings table

    A shallow embedding of the logic of [MapFromJsonPage] (path extractor,
    batch request builder, submission flow), of [MappingsListPage] (load,
    row edit, CSV export) and of [lib/api.toPath], with the properties the
    specification states about them.

    Modelling conventions.
    - A JavaScript string is a [string]; each [ascii] stands for one UTF-16
      code unit in the range 0..255 (the Latin-1 part of the code space), so
      [trim] and [toLowerCase] are the restrictions of the JavaScript
      functions to that range.
    - JavaScript numbers, their rendering by [String], the rendering of a
      built-in function, the method names of [Array.prototype] and
      [JSON.parse] belong to the host engine; they are the fields of the
      class [Host], and every definition and theorem is generic in it.
    - A [Set<string>] is a duplicate-free list in insertion order, which is
      the order [Array.from] observes.
    - A React component is a record of its state variables; a handler is a
      function from the state it closes over to the new state and the list
      of effects it issues.  A handler that awaits a request is split at the
      await: the part before it returns what the continuation captured, the
      part after it runs on the state current when the response arrives. *)

From Stdlib Require Import String Ascii List Bool Arith ZArith Lia.
From Stdlib Require Import DecimalString.
Import ListNotations.

Open Scope string_scope.
Open Scope list_scope.

(* ================================================================== *)
(** ** JavaScript string primitives used by the pages *)

Module Js.

(** Code units that [String.prototype.trim] strips (WhiteSpace and
    LineTerminator of ECMAScript, below 256): TAB, LF, VT, FF, CR, SP,
    NBSP. *)
Definition is_space (c : ascii) : bool :=
  let n := nat_of_ascii c in
  (Nat.leb 9 n && Nat.leb n 13) || Nat.eqb n 32 || Nat.eqb n 160.

Fixpoint drop_space (l : list ascii) : list ascii :=
  match l with
  | c :: l' => if is_space c then drop_space l' else l
  | [] => []
  end.

Definition trim_list (l : list ascii) : list ascii :=
  rev (drop_space (rev (drop_space l))).

(** [s.trim()] *)
Definition trim (s : string) : string :=
  string_of_list_ascii (trim_list (list_ascii_of_string s)).

(** One code unit of [toLowerCase]: A-Z, and the Latin-1 capitals
    U+00C0..U+00DE except the multiplication sign U+00D7. *)
Definition lower_char (c : ascii) : ascii :=
  let n := nat_of_ascii c in
  if (Nat.leb 65 n && Nat.leb n 90)
     || (Nat.leb 192 n && Nat.leb n 222 && negb (Nat.eqb n 215))
  then ascii_of_nat (n + 32) else c.

(** [s.toLowerCase()] *)
Fixpoint toLowerCase (s : string) : string :=
  match s with
  | EmptyString => EmptyString
  | String c s' => String (lower_char c) (toLowerCase s')
  end.

(** [s.startsWith(p)] *)
Definition startsWith (p s : string) : bool := String.prefix p s.

(** [s.includes(t)]: [t] occurs in [s] as a substring. *)
Fixpoint includes (s t : string) : bool :=
  String.prefix t s ||
  match s with
  | EmptyString => false
  | String _ s' => includes s' t
  end.

(** [s.replaceAll(c, r)] for a one-character pattern [c]. *)
Fixpoint replaceAll (c : ascii) (r : string) (s : string) : string :=
  match s with
  | EmptyString => EmptyString
  | String a s' =>
      if Ascii.eqb a c then r ++ replaceAll c r s'
      else String a (replaceAll c r s')
  end.

(** [s.split(c)] for a one-character separator: never the empty list. *)
Fixpoint split (c : ascii) (s : string) : list string :=
  match s with
  | EmptyString => [EmptyString]
  | String a s' =>
      if Ascii.eqb a c then EmptyString :: split c s'
      else match split c s' with
           | w :: ws => String a w :: ws
           | [] => [String a EmptyString]
           end
  end.

(** [l.join(sep)] on an array of strings. *)
Definition join (sep : string) (l : list string) : string :=
  String.concat sep l.

(** Truthiness of a string: the empty string is the only falsy one. *)
Definition truthy (s : string) : bool :=
  match s with EmptyString => false | _ => true end.

(** The canonical decimal numeral of an array index, as [Object.keys]
    lists it on an array. *)
Definition index_key (i : nat) : string :=
  NilZero.string_of_uint (Nat.to_uint i).

(** The double quote and the line feed. *)
Definition dquote : ascii := "034"%char.
Definition newline : string := String "010"%char EmptyString.

(** [Set.prototype.add]: a value already present keeps its place. *)
Definition set_add (x : string) (s : list string) : list string :=
  if existsb (String.eqb x) s then s else s ++ [x].

End Js.

(* ================================================================== *)
(** ** JSON values and the host engine *)

#[local] Unset Elimination Schemes.

(** What [JSON.parse] returns, over the host's numbers.  An object is the
    list of its own entries in the order [Object.keys] enumerates them. *)
Inductive json_value (num : Type) : Type :=
| JNull
| JBool (b : bool)
| JNum (n : num)
| JStr (s : string)
| JArr (elems : list (json_value num))
| JObj (props : list (string * json_value num)).

#[local] Set Elimination Schemes.

Arguments JNull {num}.
Arguments JBool {num} b.
Arguments JNum {num} n.
Arguments JStr {num} s.
Arguments JArr {num} elems.
Arguments JObj {num} props.

Class Host : Type := {
  (** the type of JavaScript numbers *)
  number : Type;
  (** [String(n)], also what a template literal inserts *)
  String_number : number -> string;
  (** the number a non-negative integer literal or a length denotes *)
  number_of_nat : nat -> number;
  (** [a === b] on numbers *)
  strict_eq : number -> number -> bool;
  (** truthiness of a number: neither zero nor NaN *)
  number_truthy : number -> bool;
  (** [String(f)] for the built-in function named [f] *)
  String_native : string -> string;
  (** the names of the methods of [Array.prototype] *)
  Array_prototype_methods : list string;
  (** [JSON.parse(text)]; [None] when it throws *)
  JSON_parse : string -> option (json_value number)
}.

Abbreviation json := (json_value number).

(** The two built-in objects a parsed value inherits from. *)
Inductive proto : Type := ObjectPrototype | ArrayPrototype.

(** The values a property read can deliver on parsed data: [undefined], a
    parsed value, a built-in function, a built-in prototype object. *)
Inductive value {H : Host} : Type :=
| VUndefined
| VJson (j : json)
| VNative (name : string)
| VProto (p : proto).

(** The results of [typeof]. *)
Inductive js_type : Type :=
| TUndefined | TObject | TBoolean | TNumber | TString | TFunction.

(* ================================================================== *)
(** ** types.ts *)

Module BatchInputItem.
Record t : Type := mk {
  sourcetype : string;
  field : string;
  description : string
}.
End BatchInputItem.

Inductive MappingType : Type := ecs | non_ecs.

Module MappingRow.
(** [MappingRow & { human_verified?: boolean }], the [Row] of the list
    page; [None] in [human_verified] is the absent property. *)
Record t {H : Host} : Type := mk {
  id : number;
  sourcetype : string;
  source_field : string;
  mapped_field_name : string;
  mapping_type : MappingType;
  rationale : option string;
  confidence : option number;
  created_at : string;
  human_verified : option bool
}.
Arguments mk {H}.
End MappingRow.

(* ================================================================== *)
(** ** lib/api.ts *)

Module Api.
(** [toPath(pathOrAbsolute)] *)
Definition toPath (pathOrAbsolute : string) : string :=
  if Js.startsWith "/" pathOrAbsolute then pathOrAbsolute
  else "/" ++ pathOrAbsolute.
End Api.

(* ================================================================== *)
(** ** pages/MapFromJsonPage.tsx *)

Module MapFromJsonPage.
Section WithHost.
Context {H : Host}.

(** [typeof v] *)
Definition typeof (v : value) : js_type :=
  match v with
  | VUndefined => TUndefined
  | VJson JNull => TObject
  | VJson (JBool _) => TBoolean
  | VJson (JNum _) => TNumber
  | VJson (JStr _) => TString
  | VJson (JArr _) => TObject
  | VJson (JObj _) => TObject
  | VNative _ => TFunction
  | VProto _ => TObject
  end.

Definition is_null (v : value) : bool :=
  match v with VJson JNull => true | _ => false end.

Definition is_undefined (v : value) : bool :=
  match v with VUndefined => true | _ => false end.

Definition is_TObject (t : js_type) : bool :=
  match t with TObject => true | _ => false end.

(** [typeof v === "object" && v !== null] *)
Definition is_object_value (v : value) : bool :=
  is_TObject (typeof v) && negb (is_null v).

(** The same test on a parsed value. *)
Definition is_object (v : json) : bool := is_object_value (VJson v).

(** The own enumerable entries of a parsed value, as [Object.keys(rec)]
    and [rec[key]] deliver them: the properties of an object, the
    indexed elements of an array, nothing for a scalar. *)
Fixpoint index_from (i : nat) (l : list json) : list (string * json) :=
  match l with
  | [] => []
  | v :: l' => (Js.index_key i, v) :: index_from (S i) l'
  end.

Definition entries (v : json) : list (string * json) :=
  match v with
  | JObj props => props
  | JArr elems => index_from 0 elems
  | _ => []
  end.

(** [path = prefix ? `${prefix}.${key}` : key] *)
Definition child_path (prefix key : string) : string :=
  if Js.truthy prefix then prefix ++ "." ++ key else key.

(** [extractFieldPaths(obj, prefix, depth, maxDepth, out)].  The set
    [out] is threaded through the loop and the recursive calls, as the
    source mutates one shared [Set]. *)
Fixpoint extractFieldPaths (obj : json) (prefix : string)
         (depth maxDepth : Z) (out : list string) : list string :=
  match obj with
  | JObj props =>
      if (depth >? maxDepth)%Z then out else
        (fix loop (kvs : list (string * json)) (out : list string) :=
           match kvs with
           | [] => out
           | (key, val) :: rest =>
               let path := child_path prefix key in
               if is_object val
               then loop rest (extractFieldPaths val path (depth + 1)%Z
                                 maxDepth (Js.set_add path out))
               else loop rest (Js.set_add path out)
           end) props out
  | JArr elems =>
      if (depth >? maxDepth)%Z then out else
        (fix loop (i : nat) (vs : list json) (out : list string) :=
           match vs with
           | [] => out
           | val :: rest =>
               let path := child_path prefix (Js.index_key i) in
               if is_object val
               then loop (S i) rest (extractFieldPaths val path (depth + 1)%Z
                                       maxDepth (Js.set_add path out))
               else loop (S i) rest (Js.set_add path out)
           end) 0 elems out
  | _ => out
  end.

(** The call with the defaults of the signature:
    [prefix = ""], [depth = 0], [maxDepth = 2], a fresh set. *)
Definition extractFieldPaths_default (obj : json) : list string :=
  extractFieldPaths obj "" 0 2 [].

(** *** Property lookup, for the [in] operator and [acc[key]] *)

Fixpoint assoc (key : string) (kvs : list (string * json)) : option json :=
  match kvs with
  | [] => None
  | (k, v) :: rest => if String.eqb k key then Some v else assoc key rest
  end.

(** The own properties of a parsed object or array: its entries, and
    [length] on an array. *)
Definition own_property (j : json) (key : string) : option value :=
  match assoc key (entries j) with
  | Some v => Some (VJson v)
  | None =>
      match j with
      | JArr elems =>
          if String.eqb key "length"
          then Some (VJson (JNum (number_of_nat (length elems))))
          else None
      | _ => None
      end
  end.

(** The methods of [Object.prototype] (ECMAScript, with Annex B). *)
Definition Object_prototype_methods : list string :=
  [ "__defineGetter__"; "__defineSetter__"; "hasOwnProperty";
    "__lookupGetter__"; "__lookupSetter__"; "isPrototypeOf";
    "propertyIsEnumerable"; "toString"; "valueOf"; "toLocaleString" ].

(** The object an object inherits from; [null] ends the chain. *)
Definition prototype_of (v : value) : value :=
  match v with
  | VJson (JObj _) => VProto ObjectPrototype
  | VJson (JArr _) => VProto ArrayPrototype
  | VProto ArrayPrototype => VProto ObjectPrototype
  | VProto ObjectPrototype => VJson JNull
  | _ => VUndefined
  end.

(** A property of [Object.prototype], read on behalf of [receiver]:
    [constructor], the accessor [__proto__], the methods. *)
Definition Object_prototype_property (receiver : value) (key : string)
  : option value :=
  if String.eqb key "constructor" then Some (VNative "Object")
  else if String.eqb key "__proto__" then Some (prototype_of receiver)
  else if existsb (String.eqb key) Object_prototype_methods
       then Some (VNative key)
  else None.

(** An own property of [Array.prototype], itself an empty array. *)
Definition Array_prototype_property (key : string) : option value :=
  if String.eqb key "length" then Some (VJson (JNum (number_of_nat 0)))
  else if String.eqb key "constructor" then Some (VNative "Array")
  else if existsb (String.eqb key) Array_prototype_methods
       then Some (VNative key)
  else None.

Definition or_else {A : Type} (a b : option A) : option A :=
  match a with Some _ => a | None => b end.

(** [key in acc] and [acc[key]] at once, along the prototype chain:
    [Some v] when [key in acc] holds and [acc[key]] is [v], [None] when
    [key in acc] is false. *)
Definition find_property (acc : value) (key : string) : option value :=
  match acc with
  | VJson (JObj _ as j) =>
      or_else (own_property j key) (Object_prototype_property acc key)
  | VJson (JArr _ as j) =>
      or_else (own_property j key)
        (or_else (Array_prototype_property key)
           (Object_prototype_property acc key))
  | VProto ArrayPrototype =>
      or_else (Array_prototype_property key)
        (Object_prototype_property acc key)
  | VProto ObjectPrototype => Object_prototype_property acc key
  | _ => None
  end.

(** [!obj] on the argument of [getByPath]: [null] and [undefined]. *)
Definition is_nullish (v : value) : bool := is_undefined v || is_null v.

(** The reducer of [getByPath]. *)
Definition getByPath_step (acc : value) (key : string) : value :=
  if is_object_value acc then
    match find_property acc key with
    | Some v => v
    | None => VUndefined
    end
  else VUndefined.

(** [getByPath(obj, path)] *)
Definition getByPath (obj : value) (path : string) : value :=
  if is_nullish obj then VUndefined
  else fold_left getByPath_step (Js.split "." path) obj.

(** [String(v)] on a value that is not an object. *)
Definition String_value (v : value) : string :=
  match v with
  | VUndefined => "undefined"
  | VJson JNull => "null"
  | VJson (JBool b) => if b then "true" else "false"
  | VJson (JNum n) => String_number n
  | VJson (JStr s) => s
  | VNative name => String_native name
  | VJson (JArr _) | VJson (JObj _) | VProto _ => "[object Object]"
  end.

(** The state variables of the component. *)
Record state : Type := mkState {
  text : string;
  sourcetype : string;
  model : string;
  limit : number;
  loading : bool;
  error : option string;
  results : list json;
  showPayload : bool
}.

Definition setError (e : option string) (st : state) : state :=
  {| text := text st; sourcetype := sourcetype st; model := model st;
     limit := limit st; loading := loading st; error := e;
     results := results st; showPayload := showPayload st |}.

Definition setResults (r : list json) (st : state) : state :=
  {| text := text st; sourcetype := sourcetype st; model := model st;
     limit := limit st; loading := loading st; error := error st;
     results := r; showPayload := showPayload st |}.

Definition setLoading (b : bool) (st : state) : state :=
  {| text := text st; sourcetype := sourcetype st; model := model st;
     limit := limit st; loading := b; error := error st;
     results := results st; showPayload := showPayload st |}.

Definition invalid_json_message : string :=
  "Invalid JSON. Please paste a valid JSON object or array.".

Definition shape_message : string :=
  "JSON must be an object or an array of objects.".

(** The documents of a parsed input: the object entries of an array, the
    value itself when it is an object, nothing otherwise. *)
Definition documents (parsed : json) : list json :=
  match parsed with
  | JArr xs => filter is_object xs
  | _ => if is_object parsed then [parsed] else []
  end.

(** The union of the per-document extraction, into one shared set. *)
Definition collect_fields (arr : list json) : list string :=
  fold_left (fun fields ev => extractFieldPaths ev "" 0 2 fields) arr [].

(** The description of field [f], sampled in [first]. *)
Definition describe (first : json) (f : string) : string :=
  let v := getByPath (VJson first) f in
  if negb (is_undefined v) && negb (is_null v)
     && negb (is_TObject (typeof v))
  then "sample value: " ++ String_value v
  else "field " ++ f.

(** [buildBatchPayload(silent)], on the state the render closed over:
    the payload, or [None] for [null], and the state after the
    [setError] it may have issued. *)
Definition buildBatchPayload (silent : bool) (st : state)
  : option (list BatchInputItem.t) * state :=
  if negb (Js.truthy (text st)) || String.eqb (Js.trim (text st)) ""
  then (None, st)
  else
    match JSON_parse (text st) with
    | None =>
        (None, if silent then st else setError (Some invalid_json_message) st)
    | Some parsed =>
        let arr := documents parsed in
        match arr with
        | [] =>
            (None, if silent then st else setError (Some shape_message) st)
        | _ :: _ =>
            let fields := collect_fields arr in
            let first := hd (JObj []) arr in
            (Some (map (fun f => BatchInputItem.mk (sourcetype st) f
                                   (describe first f)) fields),
             st)
        end
    end.

(** *** Submission: [handleMap] *)

(** The request [api.post(url, payload)] with [url] built from
    [URLSearchParams({ limit: String(limit), model })]. *)
Record post_request : Type := mkPost {
  post_path : string;
  post_query : list (string * string);
  post_body : list BatchInputItem.t
}.

(** What the [catch] clause reads of a rejection:
    [err?.response?.data?.detail] and [err?.response?.data?.message],
    [None] when the chain ends in [undefined]. *)
Record rejection : Type := mkRejection {
  detail : option string;
  message : option string
}.

(** How the awaited request settles. *)
Inductive outcome : Type :=
| Resolved (data : value)
| Rejected (err : rejection).

(** [a || b] on optional strings: the first truthy one. *)
Definition or_string (a : option string) (b : string) : string :=
  match a with
  | Some x => if Js.truthy x then x else b
  | None => b
  end.

Definition mapping_failed_message : string :=
  "Mapping failed. Check backend logs.".

(** [data?.results] *)
Definition response_results (data : value) : value :=
  if is_nullish data then VUndefined
  else match find_property data "results" with
       | Some v => v
       | None => VUndefined
       end.

(** [Array.isArray(v) ? v : []] *)
Definition array_or_empty (v : value) : list json :=
  match v with
  | VJson (JArr elems) => elems
  | _ => []
  end.

(** [handleMap] up to the [await]: the state after the synchronous part
    and the request issued, or [None] when the handler returned early. *)
Definition handleMap_begin (st : state) : state * option post_request :=
  let st1 := setResults [] (setError None st) in
  let '(payload, st2) := buildBatchPayload false st1 in
  match payload with
  | None => (st2, None)
  | Some p =>
      (setLoading true st2,
       Some (mkPost (Api.toPath "/map-batch")
                    [("limit", String_number (limit st)); ("model", model st)]
                    p))
  end.

(** [handleMap] from the [await] on, on the state current at that time. *)
Definition handleMap_finish (o : outcome) (st : state) : state :=
  setLoading false
    match o with
    | Resolved data => setResults (array_or_empty (response_results data)) st
    | Rejected err =>
        setError (Some (or_string (detail err)
                          (or_string (message err) mapping_failed_message))) st
    end.

(** A whole run of [handleMap] with nothing interleaved. *)
Definition handleMap (st : state) (o : outcome) : state :=
  match handleMap_begin st with
  | (st1, None) => st1
  | (st1, Some _) => handleMap_finish o st1
  end.

End WithHost.
End MapFromJsonPage.

(* ================================================================== *)
(** ** pages/MappingsListPage.tsx *)

Module MappingsListPage.
Section WithHost.
Context {H : Host}.

Abbreviation Row := MappingRow.t.

(** The state variables of the component. *)
Record state : Type := mkState {
  items : list Row;
  q : string;
  page : number;
  pageSize : number;
  total : number;
  loading : bool;
  notImplemented : bool;
  savingId : option number;
  editId : option number;
  editHuman : bool;
  editMapped : string
}.

Definition setItems (v : list Row) (st : state) : state :=
  {| items := v; q := q st; page := page st; pageSize := pageSize st;
     total := total st; loading := loading st;
     notImplemented := notImplemented st; savingId := savingId st;
     editId := editId st; editHuman := editHuman st;
     editMapped := editMapped st |}.

Definition setTotal (v : number) (st : state) : state :=
  {| items := items st; q := q st; page := page st; pageSize := pageSize st;
     total := v; loading := loading st;
     notImplemented := notImplemented st; savingId := savingId st;
     editId := editId st; editHuman := editHuman st;
     editMapped := editMapped st |}.

Definition setLoading (v : bool) (st : state) : state :=
  {| items := items st; q := q st; page := page st; pageSize := pageSize st;
     total := total st; loading := v;
     notImplemented := notImplemented st; savingId := savingId st;
     editId := editId st; editHuman := editHuman st;
     editMapped := editMapped st |}.

Definition setNotImplemented (v : bool) (st : state) : state :=
  {| items := items st; q := q st; page := page st; pageSize := pageSize st;
     total := total st; loading := loading st;
     notImplemented := v; savingId := savingId st;
     editId := editId st; editHuman := editHuman st;
     editMapped := editMapped st |}.

Definition setSavingId (v : option number) (st : state) : state :=
  {| items := items st; q := q st; page := page st; pageSize := pageSize st;
     total := total st; loading := loading st;
     notImplemented := notImplemented st; savingId := v;
     editId := editId st; editHuman := editHuman st;
     editMapped := editMapped st |}.

Definition setEditId (v : option number) (st : state) : state :=
  {| items := items st; q := q st; page := page st; pageSize := pageSize st;
     total := total st; loading := loading st;
     notImplemented := notImplemented st; savingId := savingId st;
     editId := v; editHuman := editHuman st;
     editMapped := editMapped st |}.

Definition setEditHuman (v : bool) (st : state) : state :=
  {| items := items st; q := q st; page := page st; pageSize := pageSize st;
     total := total st; loading := loading st;
     notImplemented := notImplemented st; savingId := savingId st;
     editId := editId st; editHuman := v;
     editMapped := editMapped st |}.

Definition setEditMapped (v : string) (st : state) : state :=
  {| items := items st; q := q st; page := page st; pageSize := pageSize st;
     total := total st; loading := loading st;
     notImplemented := notImplemented st; savingId := savingId st;
     editId := editId st; editHuman := editHuman st;
     editMapped := v |}.

(** What a handler does besides updating the state. *)
Inductive effect : Type :=
| Alert (msg : string)
| ConsoleError
| Get (url search : string) (page pageSize : number)
| Patch (url : string) (human_verified : bool) (mapped_field_name : string)
| Download (filename mime content : string).

(** *** [load] *)

(** The body of a resolved list response; [None] is a missing (or null)
    property. *)
Record ListResponse : Type := mkListResponse {
  resp_items : option (list Row);
  resp_total : option number
}.

(** What the [catch] clause of [load] inspects of the thrown value. *)
Inductive response_property : Type :=
| NoResponse                          (* ["response" in e] is false *)
| ResponseNullish                     (* [e.response] is null or undefined *)
| ResponseStatus (status : option number).   (* [e.response.status] *)

Inductive thrown : Type :=
| ThrownPrimitive                     (* not an object, or null *)
| ThrownObject (response : response_property).

Inductive load_outcome : Type :=
| LoadResolved (data : ListResponse)
| LoadRejected (e : thrown).

(** The condition of the [if] in the [catch] clause. *)
Definition is_404 (e : thrown) : bool :=
  match e with
  | ThrownObject (ResponseStatus (Some status)) =>
      strict_eq status (number_of_nat 404)
  | _ => false
  end.

(** [load] up to the [await]. *)
Definition load_begin (st : state) : state * list effect :=
  (setNotImplemented false (setLoading true st),
   [Get (Api.toPath "/mappings") (q st) (page st) (pageSize st)]).

(** [load] from the [await] on, on the state current at that time. *)
Definition load_finish (o : load_outcome) (st : state) : state * list effect :=
  match o with
  | LoadResolved data =>
      let st1 := setItems (match resp_items data with
                           | Some l => l
                           | None => []
                           end) st in
      let st2 := setTotal (match resp_total data with
                           | Some n => if number_truthy n then n
                                       else number_of_nat 0
                           | None => number_of_nat 0
                           end) st1 in
      (setLoading false st2, [])
  | LoadRejected e =>
      let st1 := if is_404 e then setNotImplemented true st else st in
      (setLoading false st1, [ConsoleError])
  end.

(** A whole run of [load] with nothing interleaved. *)
Definition load (st : state) (o : load_outcome) : state * list effect :=
  let '(st1, fx1) := load_begin st in
  let '(st2, fx2) := load_finish o st1 in
  (st2, fx1 ++ fx2).

(** *** The filtered view *)

Definition filtered (st : state) : list Row :=
  if negb (Js.truthy (q st)) then items st
  else
    let t := Js.toLowerCase (q st) in
    filter (fun r =>
              Js.includes (Js.toLowerCase (MappingRow.sourcetype r)) t
              || Js.includes (Js.toLowerCase (MappingRow.source_field r)) t
              || Js.includes (Js.toLowerCase (MappingRow.mapped_field_name r)) t)
           (items st).

(** *** [exportCSV] *)

Definition header : list string :=
  [ "id"; "sourcetype"; "source_field"; "mapped_field_name";
    "mapped_field_name_underscore"; "mapping_type"; "confidence";
    "created_at"; "human_verified" ].

Definition String_mapping_type (m : MappingType) : string :=
  match m with ecs => "ecs" | non_ecs => "non-ecs" end.

(** The cells of one row, each already passed through [String]. *)
Definition cells (r : Row) : list string :=
  [ String_number (MappingRow.id r);
    MappingRow.sourcetype r;
    MappingRow.source_field r;
    MappingRow.mapped_field_name r;
    Js.replaceAll "." "_" (MappingRow.mapped_field_name r);
    String_mapping_type (MappingRow.mapping_type r);
    match MappingRow.confidence r with
    | Some c => String_number c
    | None => ""
    end;
    MappingRow.created_at r;
    match MappingRow.human_verified r with
    | Some true => "true"
    | _ => "false"
    end ].

(** One value: quotes doubled, the whole between quotes. *)
Definition quote (v : string) : string :=
  String Js.dquote
    (Js.replaceAll Js.dquote (String Js.dquote (String Js.dquote EmptyString)) v
     ++ String Js.dquote EmptyString).

Definition csv_line (cols : list string) : string :=
  Js.join "," (map quote cols).

Definition csv_text (rows : list Row) : string :=
  Js.join Js.newline (map csv_line (header :: map cells rows)).


(** *** Row edit handlers *)

Definition startEdit (r : Row) (st : state) : state :=
  setEditMapped (MappingRow.mapped_field_name r)
    (setEditHuman (match MappingRow.human_verified r with
                   | Some b => b
                   | None => false
                   end)
       (setEditId (Some (MappingRow.id r)) st)).

Definition cancelEdit (st : state) : state :=
  setEditMapped "" (setEditHuman false (setEditId None st)).

(** What the continuation of [saveEdit] keeps from the render it was
    created in. *)
Record pending_save : Type := mkPending {
  save_id : number;
  save_human : bool;
  save_name : string
}.

Inductive patch_outcome : Type := PatchResolved | PatchRejected.

(** The row as the success branch rewrites it:
    [{ ...it, human_verified: editHuman, mapped_field_name: nextName }]. *)
Definition patch_row (p : pending_save) (it : Row) : Row :=
  {| MappingRow.id := MappingRow.id it;
     MappingRow.sourcetype := MappingRow.sourcetype it;
     MappingRow.source_field := MappingRow.source_field it;
     MappingRow.mapped_field_name := save_name p;
     MappingRow.mapping_type := MappingRow.mapping_type it;
     MappingRow.rationale := MappingRow.rationale it;
     MappingRow.confidence := MappingRow.confidence it;
     MappingRow.created_at := MappingRow.created_at it;
     MappingRow.human_verified := Some (save_human p) |}.

(** [saveEdit(id)] up to the [await]: the state, the effects, and the
    pending continuation, [None] when the handler returned early. *)
Definition saveEdit_begin (id : number) (st : state)
  : state * list effect * option pending_save :=
  let nextName := Js.trim (editMapped st) in
  if negb (Js.truthy nextName)
  then (st, [Alert "Mapped Field cannot be empty."], None)
  else (setSavingId (Some id) st,
        [Patch (Api.toPath ("/mappings/" ++ String_number id))
               (editHuman st) nextName],
        Some (mkPending id (editHuman st) nextName)).

(** [saveEdit] from the [await] on, on the state current at that time. *)
Definition saveEdit_finish (p : pending_save) (o : patch_outcome) (st : state)
  : state * list effect :=
  match o with
  | PatchResolved =>
      let st1 := setItems (map (fun it =>
                                  if strict_eq (MappingRow.id it) (save_id p)
                                  then patch_row p it else it)
                               (items st)) st in
      (setSavingId None (setEditId None st1), [])
  | PatchRejected =>
      (setSavingId None st,
       [ConsoleError; Alert "Failed to update. See console for details."])
  end.

(** A whole run of [saveEdit] with nothing interleaved. *)
Definition saveEdit (id : number) (st : state) (o : patch_outcome)
  : state * list effect :=
  match saveEdit_begin id st with
  | (st1, fx1, None) => (st1, fx1)
  | (st1, fx1, Some p) =>
      let '(st2, fx2) := saveEdit_finish p o st1 in
      (st2, fx1 ++ fx2)
  end.

End WithHost.
End MappingsListPage.

(* ================================================================== *)
(** ** A host to run the model on

    Numbers are the integers, rendered in decimal; [JSON.parse] is a
    reader for the fragment of JSON whose numbers are integer numerals
    and whose strings use no [\u] escape (any other text is rejected).
    An object is built as the engine defines its properties: a repeated
    key keeps its first place and takes the last value, and keys that are
    array indices come first, in ascending order. *)

Module SampleHost.

Local Open Scope char_scope.

Definition is_digit (c : ascii) : bool :=
  let n := nat_of_ascii c in Nat.leb 48 n && Nat.leb n 57.

Definition digit_value (c : ascii) : N := N.of_nat (nat_of_ascii c - 48).

(** JSON white space: space, TAB, LF, CR. *)
Definition is_json_ws (c : ascii) : bool :=
  let n := nat_of_ascii c in
  Nat.eqb n 32 || Nat.eqb n 9 || Nat.eqb n 10 || Nat.eqb n 13.

Fixpoint skip_ws (l : list ascii) : list ascii :=
  match l with
  | c :: l' => if is_json_ws c then skip_ws l' else l
  | [] => []
  end.

(** Digits of a numeral, most significant first. *)
Fixpoint read_digits (l : list ascii) (acc : N) : N * list ascii :=
  match l with
  | c :: l' => if is_digit c then read_digits l' (acc * 10 + digit_value c)%N
               else (acc, l)
  | [] => (acc, [])
  end.

(** After the integer part nothing of a fraction or exponent may follow. *)
Definition ends_number (l : list ascii) : bool :=
  match l with
  | "." :: _ | "e" :: _ | "E" :: _ => false
  | _ => true
  end.

Definition read_nat (l : list ascii) : option (N * list ascii) :=
  match l with
  | "0" :: r => if ends_number r
                then match r with
                     | c :: _ => if is_digit c then None else Some (0%N, r)
                     | [] => Some (0%N, r)
                     end
                else None
  | c :: _ => if is_digit c
              then let '(n, r) := read_digits l 0%N in
                   if ends_number r then Some (n, r) else None
              else None
  | [] => None
  end.

(** The characters of a string literal after its opening quote. *)
Fixpoint read_string (l : list ascii) (acc : list ascii)
  : option (string * list ascii) :=
  match l with
  | [] => None
  | c :: r =>
      if Ascii.eqb c "034" then Some (string_of_list_ascii (rev acc), r)
      else if Ascii.eqb c "\" then
        match r with
        | e :: r' =>
            if Ascii.eqb e "034" then read_string r' ("034" :: acc)
            else if Ascii.eqb e "\" then read_string r' ("\" :: acc)
            else if Ascii.eqb e "/" then read_string r' ("/" :: acc)
            else if Ascii.eqb e "b" then read_string r' ("008" :: acc)
            else if Ascii.eqb e "f" then read_string r' ("012" :: acc)
            else if Ascii.eqb e "n" then read_string r' ("010" :: acc)
            else if Ascii.eqb e "r" then read_string r' ("013" :: acc)
            else if Ascii.eqb e "t" then read_string r' ("009" :: acc)
            else None
        | [] => None
        end
      else if Nat.ltb (nat_of_ascii c) 32 then None
      else read_string r (c :: acc)
  end.

(** The array index a property key denotes, if it is one. *)
Definition index_of_key (k : string) : option N :=
  match read_nat (list_ascii_of_string k) with
  | Some (n, []) => if (n <? 4294967295)%N then Some n else None
  | _ => None
  end.

Fixpoint replace_value (k : string) (v : json_value Z)
         (kvs : list (string * json_value Z)) : option (list (string * json_value Z)) :=
  match kvs with
  | [] => None
  | (k', v') :: rest =>
      if String.eqb k' k then Some ((k', v) :: rest)
      else match replace_value k v rest with
           | Some rest' => Some ((k', v') :: rest')
           | None => None
           end
  end.

Fixpoint insert_index (i : N) (k : string) (v : json_value Z)
         (kvs : list (string * json_value Z)) : list (string * json_value Z) :=
  match kvs with
  | [] => [(k, v)]
  | (k', v') :: rest =>
      match index_of_key k' with
      | Some j => if (j <? i)%N then (k', v') :: insert_index i k v rest
                  else (k, v) :: kvs
      | None => (k, v) :: kvs
      end
  end.

(** Defining property [k] with value [v] on the object built so far. *)
Definition define_property (k : string) (v : json_value Z)
           (kvs : list (string * json_value Z)) : list (string * json_value Z) :=
  match replace_value k v kvs with
  | Some kvs' => kvs'
  | None =>
      match index_of_key k with
      | Some i => insert_index i k v kvs
      | None => kvs ++ [(k, v)]
      end
  end.

Fixpoint read_value (fuel : nat) (l : list ascii)
  : option (json_value Z * list ascii) :=
  match fuel with
  | O => None
  | S fuel' =>
      match skip_ws l with
      | "n" :: "u" :: "l" :: "l" :: r => Some (JNull, r)
      | "t" :: "r" :: "u" :: "e" :: r => Some (JBool true, r)
      | "f" :: "a" :: "l" :: "s" :: "e" :: r => Some (JBool false, r)
      | "034" :: r =>
          match read_string r [] with
          | Some (s, r') => Some (JStr s, r')
          | None => None
          end
      | "-" :: r =>
          match read_nat r with
          | Some (n, r') => Some (JNum (- Z.of_N n)%Z, r')
          | None => None
          end
      | "[" :: r =>
          match skip_ws r with
          | "]" :: r' => Some (JArr [], r')
          | _ =>
              (fix elems (n : nat) (r : list ascii) (acc : list (json_value Z)) :=
                 match n with
                 | O => None
                 | S n' =>
                     match read_value fuel' r with
                     | Some (v, r1) =>
                         match skip_ws r1 with
                         | "," :: r2 => elems n' r2 (v :: acc)
                         | "]" :: r2 => Some (JArr (rev (v :: acc)), r2)
                         | _ => None
                         end
                     | None => None
                     end
                 end) fuel' r []
          end
      | "{" :: r =>
          match skip_ws r with
          | "}" :: r' => Some (JObj [], r')
          | _ =>
              (fix members (n : nat) (r : list ascii)
                   (acc : list (string * json_value Z)) :=
                 match n with
                 | O => None
                 | S n' =>
                     match skip_ws r with
                     | "034" :: r0 =>
                         match read_string r0 [] with
                         | Some (k, r1) =>
                             match skip_ws r1 with
                             | ":" :: r2 =>
                                 match read_value fuel' r2 with
                                 | Some (v, r3) =>
                                     match skip_ws r3 with
                                     | "," :: r4 =>
                                         members n' r4 (define_property k v acc)
                                     | "}" :: r4 =>
                                         Some (JObj (define_property k v acc), r4)
                                     | _ => None
                                     end
                                 | None => None
                                 end
                             | _ => None
                             end
                         | None => None
                         end
                     | _ => None
                     end
                 end) fuel' r []
          end
      | l' =>
          match read_nat l' with
          | Some (n, r') => Some (JNum (Z.of_N n), r')
          | None => None
          end
      end
  end.

Definition parse (text : string) : option (json_value Z) :=
  match read_value (S (String.length text)) (list_ascii_of_string text) with
  | Some (v, r) =>
      match skip_ws r with
      | [] => Some v
      | _ => None
      end
  | None => None
  end.

Definition String_Z (n : Z) : string := NilZero.string_of_int (Z.to_int n).

(** The methods of [Array.prototype] as of ECMAScript 2023. *)
Definition es2023_Array_prototype_methods : list string :=
  [ "at"; "concat"; "copyWithin"; "entries"; "every"; "fill"; "filter";
    "find"; "findIndex"; "findLast"; "findLastIndex"; "flat"; "flatMap";
    "forEach"; "includes"; "indexOf"; "join"; "keys"; "lastIndexOf"; "map";
    "pop"; "push"; "reduce"; "reduceRight"; "reverse"; "shift"; "slice";
    "some"; "sort"; "splice"; "toLocaleString"; "toReversed"; "toSorted";
    "toSpliced"; "toString"; "unshift"; "values"; "with" ]%string.

Definition host : Host := {|
  number := Z;
  String_number := String_Z;
  number_of_nat := Z.of_nat;
  strict_eq := Z.eqb;
  number_truthy := fun n => negb (Z.eqb n 0);
  String_native := fun name =>
    ("function " ++ name ++ "() { [native code] }")%string;
  Array_prototype_methods := es2023_Array_prototype_methods;
  JSON_parse := parse
|}.

End SampleHost.

(** A JSON text written with apostrophes in place of double quotes. *)
Definition json_text (s : string) : string :=
  Js.replaceAll "'" (String Js.dquote EmptyString) s.

(* ================================================================== *)
(** ** Vocabulary of the properties *)

Section Vocabulary.
Context {H : Host}.
Import MapFromJsonPage.

(** Structural induction on parsed values. *)
Fixpoint json_induction (P : json -> Prop)
         (Hnull : P JNull)
         (Hbool : forall b, P (JBool b))
         (Hnum : forall n, P (JNum n))
         (Hstr : forall s, P (JStr s))
         (Harr : forall elems, Forall P elems -> P (JArr elems))
         (Hobj : forall props, Forall (fun kv => P (snd kv)) props ->
                               P (JObj props))
         (v : json) {struct v} : P v :=
  match v with
  | JNull => Hnull
  | JBool b => Hbool b
  | JNum n => Hnum n
  | JStr s => Hstr s
  | JArr elems =>
      Harr elems
        ((fix all (l : list json) : Forall P l :=
            match l with
            | [] => Forall_nil P
            | x :: l' =>
                Forall_cons x
                  (json_induction P Hnull Hbool Hnum Hstr Harr Hobj x) (all l')
            end) elems)
  | JObj props =>
      Hobj props
        ((fix all (l : list (string * json))
            : Forall (fun kv => P (snd kv)) l :=
            match l with
            | [] => Forall_nil _
            | kv :: l' =>
                Forall_cons kv
                  (json_induction P Hnull Hbool Hnum Hstr Harr Hobj (snd kv))
                  (all l')
            end) props)
  end.

(** The value reached from [obj] by reading the keys [ks] one after the
    other; every key but the last is read on a container. *)
Inductive at_keys : json -> list string -> json -> Prop :=
| at_keys_last obj k v :
    In (k, v) (entries obj) -> at_keys obj [k] v
| at_keys_step obj k c ks v :
    In (k, c) (entries obj) -> at_keys c ks v -> at_keys obj (k :: ks) v.

(** The path string of a key list under a prefix, by the rule of the
    walker. *)
Definition path_from (prefix : string) (ks : list string) : string :=
  fold_left child_path ks prefix.

Definition path_of (ks : list string) : string := path_from "" ks.

(** The depth counter of the walker when it reads the last key of [ks]:
    0 for a top-level key. *)
Definition level (ks : list string) : Z := Z.of_nat (length ks) - 1.

(** One iteration of the loop of [extractFieldPaths]. *)
Definition visit (prefix : string) (depth maxDepth : Z)
           (out : list string) (kv : string * json) : list string :=
  let path := child_path prefix (fst kv) in
  if is_object (snd kv)
  then extractFieldPaths (snd kv) path (depth + 1)%Z maxDepth
                         (Js.set_add path out)
  else Js.set_add path out.

(** The value found by reading [keys] one after the other as own
    entries. *)
Fixpoint walk_own (v : json) (keys : list string) : option json :=
  match keys with
  | [] => Some v
  | k :: ks =>
      match assoc k (entries v) with
      | Some c => walk_own c ks
      | None => None
      end
  end.

(** Along that walk, the key at which it stops (if it stops) is not
    found on the prototype chain either. *)
Fixpoint stops_clean (v : json) (keys : list string) : Prop :=
  match keys with
  | [] => True
  | k :: ks =>
      match assoc k (entries v) with
      | Some c => stops_clean c ks
      | None => find_property (VJson v) k = None
      end
  end.

(** Every code unit of [s] is white space. *)
Definition all_space (s : string) : bool :=
  forallb Js.is_space (list_ascii_of_string s).

(** [s] is not empty and neither starts nor ends with white space. *)
Definition tight (s : string) : bool :=
  match list_ascii_of_string s with
  | c :: _ => negb (Js.is_space c)
  | [] => false
  end
  && match rev (list_ascii_of_string s) with
     | c :: _ => negb (Js.is_space c)
     | [] => false
     end.

(** The rejection of a request by a response with the given status, as
    [load] catches it. *)
Definition rejected_with (status : number) : MappingsListPage.load_outcome :=
  MappingsListPage.LoadRejected
    (MappingsListPage.ThrownObject
       (MappingsListPage.ResponseStatus (Some status))).

(** A reader of CSV in which every field is quoted (RFC 4180): a quote
    inside a field is written twice, a comma after a closing quote
    starts the next field, a line feed after a closing quote starts the
    next record. *)
Inductive csv_mode : Type := Expect | Inside | Closing.

Fixpoint read_csv_from (mode : csv_mode) (cur : list ascii)
         (row : list string) (l : list ascii) : option (list (list string)) :=
  let field := string_of_list_ascii (rev cur) in
  match l with
  | [] =>
      match mode with
      | Closing => Some [rev (field :: row)]
      | _ => None
      end
  | c :: r =>
      match mode with
      | Expect =>
          if Ascii.eqb c Js.dquote then read_csv_from Inside [] row r
          else None
      | Inside =>
          if Ascii.eqb c Js.dquote then read_csv_from Closing cur row r
          else read_csv_from Inside (c :: cur) row r
      | Closing =>
          if Ascii.eqb c Js.dquote
          then read_csv_from Inside (Js.dquote :: cur) row r
          else if Ascii.eqb c "," then read_csv_from Expect [] (field :: row) r
          else if Ascii.eqb c "010"
               then option_map (cons (rev (field :: row)))
                               (read_csv_from Expect [] [] r)
          else None
      end
  end.

Definition read_csv (s : string) : option (list (list string)) :=
  read_csv_from Expect [] [] (list_ascii_of_string s).

(** The value with its quotes doubled, as [quote] writes it between the
    enclosing quotes. *)
Definition doubled (v : string) : string :=
  Js.replaceAll Js.dquote (String Js.dquote (String Js.dquote EmptyString)) v.

(** The number of occurrences of a code unit in a string. *)
Fixpoint count_char (c : ascii) (s : string) : nat :=
  match s with
  | EmptyString => 0
  | String a s' => (if Ascii.eqb a c then 1 else 0) + count_char c s'
  end.

(** [k] holds no dot. *)
Definition dotless (k : string) : bool := Nat.eqb (count_char "." k) 0.

End Vocabulary.

(** *** Sample data *)

Module Samples.
Import MapFromJsonPage.

Abbreviation J := (json_value Z).

(** The component as first rendered, with [text] filled in. *)
Definition pasted (text : string) : state (H := SampleHost.host) :=
  mkState (H := SampleHost.host) text "pan_traffic" "gpt-4o-mini" 5%Z
          false None [] false.

Definition nested_doc : J :=
  JObj [("a", JObj [("b", JObj [("c", JObj [("d", JNum 1%Z)])])]);
        ("e", JNum 2%Z)].

Definition tagged_doc : J :=
  JObj [("tags", JArr [JStr "x"; JArr [JStr "y"]])].

Definition two_docs_text : string := json_text "[{'a':1},{'toString':2}]".

Definition row1 : MappingRow.t (H := SampleHost.host) :=
  MappingRow.mk (H := SampleHost.host) 7%Z "pan_traffic" "src_ip"
                "source.ip" ecs (Some "direct match") (Some 1%Z)
                "2024-01-01T00:00:00Z" None.

Definition row2 : MappingRow.t (H := SampleHost.host) :=
  MappingRow.mk (H := SampleHost.host) 8%Z "pan_traffic"
                (json_text "say 'hi'") "custom.say" non_ecs None None
                "2024-01-02T00:00:00Z" (Some true).

(** The table with two cached rows, row 7 in edit. *)
Definition editing (name : string)
  : MappingsListPage.state (H := SampleHost.host) :=
  MappingsListPage.mkState (H := SampleHost.host)
    [row1; row2] "" 1%Z 20%Z 2%Z false false None (Some 7%Z) true name.

End Samples.

(* ================================================================== *)
(** ** Properties of the path extractor *)

Section ExtractorProperties.
Context {H : Host}.
Import MapFromJsonPage.

Lemma index_from_In (l : list json) (i : nat) (k : string) (c : json) :
  In (k, c) (index_from i l) -> In c l.
Proof.
  revert i; induction l as [|x l IH]; simpl; intros i Hin.
  - contradiction.
  - destruct Hin as [Heq | Hin].
    + left. congruence.
    + right. eapply IH; eauto.
Qed.

(** Induction through the entries of a container. *)
Lemma json_entries_ind (P : json -> Prop) :
  (forall v, (forall k c, In (k, c) (entries v) -> P c) -> P v) ->
  forall v, P v.
Proof.
  intros step. apply json_induction.
  - apply step. intros k c [].
  - intros b. apply step. intros k c [].
  - intros n. apply step. intros k c [].
  - intros s. apply step. intros k c [].
  - intros elems Hall. apply step. intros k c Hin.
    apply index_from_In in Hin. rewrite Forall_forall in Hall. auto.
  - intros props Hall. apply step. intros k c Hin.
    rewrite Forall_forall in Hall. apply (Hall (k, c) Hin).
Qed.

Lemma extractFieldPaths_unfold (obj : json) prefix depth maxDepth out :
  extractFieldPaths obj prefix depth maxDepth out =
  if (depth >? maxDepth)%Z then out
  else fold_left (visit prefix depth maxDepth) (entries obj) out.
Proof.
  destruct obj as [| b | n | s | elems | props]; simpl;
    destruct (depth >? maxDepth)%Z; try reflexivity.
  - generalize 0. revert out.
    induction elems as [|x l IH]; intros out i; simpl; [reflexivity|].
    unfold visit at 2; simpl.
    destruct (is_object x); apply IH.
  - revert out.
    induction props as [|[k x] l IH]; intros out; simpl; [reflexivity|].
    unfold visit at 2; simpl.
    destruct (is_object x); apply IH.
Qed.

Lemma existsb_eqb_In (x : string) (s : list string) :
  existsb (String.eqb x) s = true <-> In x s.
Proof.
  rewrite existsb_exists. split.
  - intros [y [Hin Heq]]. apply String.eqb_eq in Heq. congruence.
  - intros Hin. exists x. split; [assumption | apply String.eqb_refl].
Qed.

Lemma set_add_In (x p : string) (s : list string) :
  In p (Js.set_add x s) <-> p = x \/ In p s.
Proof.
  unfold Js.set_add.
  destruct (existsb (String.eqb x) s) eqn:E.
  - apply existsb_eqb_In in E. split; [tauto|]. intros [-> | ?]; assumption.
  - rewrite in_app_iff. simpl. split; intros; intuition congruence.
Qed.

Lemma set_add_NoDup (x : string) (s : list string) :
  NoDup s -> NoDup (Js.set_add x s).
Proof.
  intros Hnd. unfold Js.set_add.
  destruct (existsb (String.eqb x) s) eqn:E; [assumption|].
  assert (~ In x s) as Hnin.
  { intros Hin. apply existsb_eqb_In in Hin. congruence. }
  clear E. induction Hnd as [|y l Hy Hl IH]; simpl.
  - constructor; [tauto | constructor].
  - constructor.
    + rewrite in_app_iff. simpl in *. intuition congruence.
    + apply IH. simpl in Hnin. tauto.
Qed.

Lemma at_keys_scalar (v : json) ks w :
  is_object v = false -> ~ at_keys v ks w.
Proof.
  intros Hs Hat.
  assert (entries v = []) as He
    by (destruct v; try reflexivity; cbv in Hs; discriminate).
  inversion Hat; subst; rewrite He in *; contradiction.
Qed.

Lemma at_keys_nonempty (v : json) ks w : at_keys v ks w -> (0 <= level ks)%Z.
Proof. unfold level. inversion 1; cbn [length]; lia. Qed.

(** What the walker adds: the paths of the key lists that stay within
    the depth bound, and nothing else. *)
Lemma extractFieldPaths_In :
  forall (obj : json) prefix depth maxDepth out p,
    In p (extractFieldPaths obj prefix depth maxDepth out) <->
    In p out \/
    exists ks v, at_keys obj ks v /\ (depth + level ks <= maxDepth)%Z /\
                 p = path_from prefix ks.
Proof.
  induction obj as [obj IH] using json_entries_ind.
  intros prefix depth maxDepth out p.
  rewrite extractFieldPaths_unfold.
  destruct (depth >? maxDepth)%Z eqn:Hd.
  - split; [tauto|]. intros [? | (ks & v & Hat & Hle & _)]; [assumption|].
    apply at_keys_nonempty in Hat. lia.
  - assert (depth <= maxDepth)%Z as Hdle by lia. clear Hd.
    assert (forall es, incl es (entries obj) -> forall out,
              In p (fold_left (visit prefix depth maxDepth) es out) <->
              In p out \/
              exists k c, In (k, c) es /\
                (p = child_path prefix k \/
                 exists ks v, at_keys c ks v /\
                              (depth + 1 + level ks <= maxDepth)%Z /\
                              p = path_from (child_path prefix k) ks)) as Hloop.
    { induction es as [|[k c] es IHes]; intros Hincl out'; simpl.
      - split; [tauto|]. intros [? | (k & c & [] & _)]. assumption.
      - rewrite IHes by (intros x Hx; apply Hincl; right; assumption).
        assert (In p (visit prefix depth maxDepth out' (k, c)) <->
                In p out' \/ p = child_path prefix k \/
                exists ks v, at_keys c ks v /\
                             (depth + 1 + level ks <= maxDepth)%Z /\
                             p = path_from (child_path prefix k) ks) as Hv.
        { unfold visit; simpl. destruct (is_object c) eqn:Hc.
          - rewrite (IH k c) by (apply Hincl; left; reflexivity).
            rewrite set_add_In. tauto.
          - rewrite set_add_In. split; [tauto|].
            intros [? | [? | (ks & v & Hat & _)]]; [tauto | tauto |].
            exfalso. eapply at_keys_scalar; eauto. }
        rewrite Hv. split.
        + intros [[? | Hk] | (k' & c' & Hin & Hp)].
          * tauto.
          * right. exists k, c. split; [left; reflexivity | assumption].
          * right. exists k', c'. split; [right; assumption | assumption].
        + intros [? | (k' & c' & [Heq | Hin] & Hp)].
          * tauto.
          * inversion Heq; subst. tauto.
          * right. exists k', c'. tauto. }
    rewrite Hloop by apply incl_refl. clear Hloop.
    split; (intros [? | Hex]; [left; assumption | right]).
    + destruct Hex as (k & c & Hin & [-> | (ks & v & Hat & Hle & ->)]).
      * exists [k], c. split; [constructor; assumption|].
        split; [unfold level; cbn [length]; lia | reflexivity].
      * exists (k :: ks), v. split; [econstructor; eassumption|].
        split; [unfold level in *; cbn [length]; lia | reflexivity].
    + destruct Hex as (ks & v & Hat & Hle & ->).
      inversion Hat as [o k v' Hin | o k c ks' v' Hin Hat']; subst.
      * exists k, v. split; [assumption | left; reflexivity].
      * exists k, c. split; [assumption | right].
        exists ks', v. split; [assumption|].
        split; [unfold level in *; cbn [length] in Hle; lia | reflexivity].
Qed.

Lemma extractFieldPaths_NoDup :
  forall (obj : json) prefix depth maxDepth out,
    NoDup out -> NoDup (extractFieldPaths obj prefix depth maxDepth out).
Proof.
  induction obj as [obj IH] using json_entries_ind.
  intros prefix depth maxDepth out Hnd.
  rewrite extractFieldPaths_unfold.
  destruct (depth >? maxDepth)%Z; [assumption|].
  assert (forall es, incl es (entries obj) -> forall out, NoDup out ->
            NoDup (fold_left (visit prefix depth maxDepth) es out)) as Hloop.
  { induction es as [|[k c] es IHes]; intros Hincl out' Hnd'; simpl.
    - assumption.
    - apply IHes; [intros x Hx; apply Hincl; right; assumption|].
      unfold visit; simpl. destruct (is_object c).
      + apply (IH k c); [apply Hincl; left; reflexivity|].
        apply set_add_NoDup; assumption.
      + apply set_add_NoDup; assumption. }
  apply Hloop; [apply incl_refl | assumption].
Qed.

Lemma path_from_snoc (prefix : string) (ks : list string) (k : string) :
  path_from prefix (ks ++ [k]) = child_path (path_from prefix ks) k.
Proof. unfold path_from. rewrite fold_left_app. reflexivity. Qed.

Lemma at_keys_snoc (obj : json) ks c k v :
  at_keys obj ks c -> In (k, v) (entries c) -> at_keys obj (ks ++ [k]) v.
Proof.
  induction 1 as [obj k0 c Hin | obj k0 c0 ks c Hin Hat IH]; intros Hk; simpl.
  - eapply at_keys_step; [eassumption | constructor; assumption].
  - eapply at_keys_step; [eassumption | apply IH; assumption].
Qed.

Lemma index_from_nth (l : list json) (i0 : nat) (k : string) (v : json) :
  In (k, v) (index_from i0 l) <->
  exists i, nth_error l i = Some v /\ k = Js.index_key (i0 + i).
Proof.
  revert i0. induction l as [|x l IH]; intros i0; simpl.
  - split; [contradiction|]. intros (i & Hn & _). destruct i; discriminate.
  - rewrite IH. split.
    + intros [Heq | (i & Hn & ->)].
      * inversion Heq; subst. exists 0. rewrite Nat.add_0_r. auto.
      * exists (S i). rewrite Nat.add_succ_r. auto.
    + intros (i & Hn & ->). destruct i as [|i]; simpl in Hn.
      * left. inversion Hn; subst. rewrite Nat.add_0_r. reflexivity.
      * right. exists i. rewrite Nat.add_succ_r. auto.
Qed.

Lemma is_object_iff (x : json) :
  is_object x = true <->
  (exists elems, x = JArr elems) \/ (exists props, x = JObj props).
Proof.
  destruct x; cbv; split; intros Hx;
    try discriminate; try reflexivity;
    try (destruct Hx as [[? Hx] | [? Hx]]; discriminate); eauto.
Qed.

Lemma extractFieldPaths_reaches (obj : json) (maxDepth : Z) ks v :
  at_keys obj ks v -> (level ks <= maxDepth)%Z ->
  In (path_of ks) (extractFieldPaths obj "" 0 maxDepth []).
Proof.
  intros Hat Hle. apply extractFieldPaths_In. right.
  exists ks, v. split; [assumption|]. split; [lia | reflexivity].
Qed.

(** C1.  For every parsed value and every maximum depth, the set the path
    extractor returns (called on the value with the empty prefix, depth 0
    and an empty set) contains the path of every key list that can be
    read in the value and whose last key is read at a depth not above the
    maximum -- whether it ends on a leaf or on a container, and also when
    that depth is exactly the maximum --; every path in the set is the
    path of such a key list, so none comes from a key read deeper than
    the maximum; and no path occurs twice.  Depth is the walker's
    counter: 0 for a top-level key. *)
Theorem extractFieldPaths_within_depth (obj : json) (maxDepth : Z) :
  (forall ks v, at_keys obj ks v -> (level ks <= maxDepth)%Z ->
                In (path_of ks) (extractFieldPaths obj "" 0 maxDepth []))
  /\ (forall p, In p (extractFieldPaths obj "" 0 maxDepth []) ->
                exists ks v, at_keys obj ks v /\ (level ks <= maxDepth)%Z /\
                             p = path_of ks)
  /\ NoDup (extractFieldPaths obj "" 0 maxDepth []).
Proof.
  split; [|split].
  - intros ks v. apply extractFieldPaths_reaches.
  - intros p Hin. apply extractFieldPaths_In in Hin.
    destruct Hin as [[] | (ks & v & Hat & Hle & ->)].
    exists ks, v. split; [assumption|]. split; [lia | reflexivity].
  - apply extractFieldPaths_NoDup. constructor.
Qed.

End ExtractorProperties.

(* ================================================================== *)
(** ** Properties of the batch request builder and of the submission *)

Section BuilderProperties.
Context {H : Host}.
Import MapFromJsonPage.

Lemma trim_nonblank_truthy (s : string) :
  Js.trim s <> "" -> Js.truthy s = true.
Proof.
  destruct s; [intros Hne; exfalso; apply Hne; reflexivity | reflexivity].
Qed.

Lemma blank_guard (s : string) :
  Js.trim s <> "" ->
  negb (Js.truthy s) || String.eqb (Js.trim s) "" = false.
Proof.
  intros Hne. rewrite (trim_nonblank_truthy s Hne). simpl.
  apply String.eqb_neq. assumption.
Qed.

(** X8.  Empty or white-space-only text: no payload and no message, in
    both modes. *)
Lemma buildBatchPayload_blank (silent : bool) (st : state) :
  Js.trim (text st) = "" -> buildBatchPayload silent st = (None, st).
Proof.
  intros Hb. unfold buildBatchPayload. rewrite Hb.
  rewrite String.eqb_refl, orb_true_r. reflexivity.
Qed.

Lemma extractFieldPaths_In_out (obj : json) prefix depth maxDepth out p :
  In p (extractFieldPaths obj prefix depth maxDepth out) <->
  In p out \/ In p (extractFieldPaths obj prefix depth maxDepth []).
Proof.
  rewrite (extractFieldPaths_In obj prefix depth maxDepth out).
  rewrite (extractFieldPaths_In obj prefix depth maxDepth []).
  simpl. tauto.
Qed.

Lemma fold_extract_In (arr : list json) (out : list string) (f : string) :
  In f (fold_left (fun fields ev => extractFieldPaths ev "" 0 2 fields) arr out)
  <-> In f out \/ exists ev, In ev arr /\ In f (extractFieldPaths_default ev).
Proof.
  revert out. induction arr as [|d arr IH]; intros out; simpl.
  - split; [tauto|]. intros [? | (ev & [] & _)]. assumption.
  - rewrite IH, extractFieldPaths_In_out. unfold extractFieldPaths_default.
    split.
    + intros [[? | ?] | (ev & Hin & Hf)]; [tauto | | ].
      * right. exists d. tauto.
      * right. exists ev. tauto.
    + intros [? | (ev & [-> | Hin] & Hf)]; [tauto | tauto |].
      right. exists ev. tauto.
Qed.

(** The field set of a batch is the union of the per-document
    extraction. *)
Lemma collect_fields_In (arr : list json) (f : string) :
  In f (collect_fields arr) <->
  exists ev, In ev arr /\ In f (extractFieldPaths_default ev).
Proof.
  unfold collect_fields. rewrite fold_extract_In. simpl. tauto.
Qed.

Lemma collect_fields_NoDup (arr : list json) : NoDup (collect_fields arr).
Proof.
  unfold collect_fields.
  assert (forall out, NoDup out ->
            NoDup (fold_left (fun fields ev => extractFieldPaths ev "" 0 2 fields)
                             arr out)) as Hgen.
  { induction arr as [|d arr IH]; intros out Hnd; simpl; [assumption|].
    apply IH. apply extractFieldPaths_NoDup. assumption. }
  apply Hgen. constructor.
Qed.

(** A successful build: one item per field of the union, in the order of
    the set, each described from the first document. *)
Lemma buildBatchPayload_success (silent : bool) (st : state)
      (parsed first : json) (rest : list json) :
  Js.trim (text st) <> "" ->
  JSON_parse (text st) = Some parsed ->
  documents parsed = first :: rest ->
  buildBatchPayload silent st =
  (Some (map (fun f => BatchInputItem.mk (sourcetype st) f (describe first f))
             (collect_fields (first :: rest))),
   st).
Proof.
  intros Hne Hp Hd. unfold buildBatchPayload.
  rewrite (blank_guard _ Hne), Hp, Hd. reflexivity.
Qed.

Lemma payload_fields (s : string) (d : string -> string)
      (fields : list string) :
  map BatchInputItem.field
      (map (fun f => BatchInputItem.mk s f (d f)) fields) = fields.
Proof.
  induction fields as [|f fields IH]; simpl; [reflexivity | now rewrite IH].
Qed.

(** X11.  What holds of a batch built from a top-level array: the items are
    the fields of the union of the extraction over the entries that are
    objects, each field once, each item with the component's sourcetype
    and the description computed in the first such entry. *)
Lemma buildBatchPayload_union (silent : bool) (st : state)
      (xs : list json) (first : json) (rest : list json) :
  Js.trim (text st) <> "" ->
  JSON_parse (text st) = Some (JArr xs) ->
  filter is_object xs = first :: rest ->
  exists payload,
    buildBatchPayload silent st = (Some payload, st)
    /\ (forall f, In f (map BatchInputItem.field payload) <->
                  exists ev, In ev xs /\ is_object ev = true /\
                             In f (extractFieldPaths_default ev))
    /\ NoDup (map BatchInputItem.field payload)
    /\ Forall (fun it =>
                 BatchInputItem.sourcetype it = sourcetype st /\
                 BatchInputItem.description it =
                 describe first (BatchInputItem.field it)) payload.
Proof.
  intros Hne Hp Hd.
  rewrite (buildBatchPayload_success silent st _ first rest Hne Hp Hd).
  eexists. split; [reflexivity|]. rewrite payload_fields.
  split; [|split].
  - intros f. rewrite collect_fields_In, <- Hd. split.
    + intros (ev & Hin & Hf). apply filter_In in Hin. exists ev. tauto.
    + intros (ev & Hin & Hobj & Hf). exists ev. rewrite filter_In. tauto.
  - apply collect_fields_NoDup.
  - apply Forall_forall. intros it Hin.
    apply in_map_iff in Hin as (f & <- & _). split; reflexivity.
Qed.

Lemma getByPath_step_undefined (keys : list string) :
  fold_left getByPath_step keys VUndefined = VUndefined.
Proof. induction keys as [|k ks IH]; [reflexivity | exact IH]. Qed.

Lemma find_property_own (v c : json) (k : string) :
  assoc k (entries v) = Some c ->
  getByPath_step (VJson v) k = VJson c.
Proof.
  intros Ha. unfold getByPath_step.
  destruct v as [| b | n | s | elems | props]; try discriminate Ha.
  - change (is_object_value (VJson (JArr elems))) with true. cbv iota.
    unfold find_property, own_property. rewrite Ha. reflexivity.
  - change (is_object_value (VJson (JObj props))) with true. cbv iota.
    unfold find_property, own_property. rewrite Ha. reflexivity.
Qed.

Lemma getByPath_step_clean (v : json) (k : string) :
  find_property (VJson v) k = None ->
  getByPath_step (VJson v) k = VUndefined.
Proof.
  intros Hf. unfold getByPath_step. rewrite Hf.
  destruct (is_object_value (VJson v)); reflexivity.
Qed.

(** Apart from inherited names, [getByPath] reads own entries. *)
Lemma getByPath_own (keys : list string) :
  forall v : json,
    stops_clean v keys ->
    fold_left getByPath_step keys (VJson v) =
    match walk_own v keys with
    | Some c => VJson c
    | None => VUndefined
    end.
Proof.
  induction keys as [|k ks IH]; intros v Hclean; [reflexivity|].
  cbn [fold_left walk_own]. cbn [stops_clean] in Hclean.
  destruct (assoc k (entries v)) as [c|] eqn:Ha.
  - rewrite (find_property_own v c k Ha). apply IH. assumption.
  - rewrite (getByPath_step_clean v k Hclean).
    apply getByPath_step_undefined.
Qed.

(** X7.  The description of a field, when no inherited name interferes: the
    rendering of the scalar that the first document holds under the
    dot-separated keys of the field, the fallback when it holds none
    there, or null, or a container. *)
Lemma describe_own (first : json) (f : string) :
  is_object first = true ->
  stops_clean first (Js.split "." f) ->
  describe first f =
  match walk_own first (Js.split "." f) with
  | Some (JBool b) =>
      ("sample value: " ++ (if b then "true" else "false"))%string
  | Some (JNum n) => ("sample value: " ++ String_number n)%string
  | Some (JStr s) => ("sample value: " ++ s)%string
  | Some JNull | Some (JArr _) | Some (JObj _) | None => ("field " ++ f)%string
  end.
Proof.
  intros Hobj Hclean. unfold describe, getByPath.
  assert (is_nullish (VJson first) = false) as Hn
      by (destruct first; try reflexivity; discriminate Hobj).
  rewrite Hn, (getByPath_own _ first Hclean).
  destruct (walk_own first (Js.split "." f)) as [[| b | n | s | l | ps]|];
    reflexivity.
Qed.

(** C2 (defect).  [getByPath] tests [key in acc], which also holds for
    the properties an object inherits.  For a batch of two documents, the
    first with the only key [a] and the second with the only key
    [toString], the first document has no own [toString], yet the item of
    the field [toString] is described by the rendering of the inherited
    built-in function, not by the fallback for a missing path. *)
Theorem buildBatchPayload_inherited_property (st : state) (n1 n2 : number) :
  Js.trim (text st) <> "" ->
  JSON_parse (text st) =
    Some (JArr [JObj [("a", JNum n1)]; JObj [("toString", JNum n2)]]) ->
  assoc "toString" (entries (JObj [("a", JNum n1)])) = None
  /\ fst (buildBatchPayload false st) =
     Some [ BatchInputItem.mk (sourcetype st) "a"
              ("sample value: " ++ String_number n1)%string;
            BatchInputItem.mk (sourcetype st) "toString"
              ("sample value: " ++ String_native "toString")%string ]
  /\ ("sample value: " ++ String_native "toString")%string
     <> "field toString".
Proof.
  intros Hne Hp. split; [reflexivity|]. split.
  - rewrite (buildBatchPayload_success false st _ (JObj [("a", JNum n1)])
               [JObj [("toString", JNum n2)]] Hne Hp eq_refl).
    reflexivity.
  - discriminate.
Qed.


Lemma index_key_not_results (i : nat) :
  String.eqb (Js.index_key i) "results" = false.
Proof.
  unfold Js.index_key. destruct (Nat.to_uint i); reflexivity.
Qed.

Lemma assoc_index_from_results (l : list json) (i : nat) :
  assoc "results" (index_from i l) = None.
Proof.
  revert i. induction l as [|x l IH]; intros i; simpl; [reflexivity|].
  rewrite index_key_not_results. apply IH.
Qed.

Lemma Object_prototype_property_results (receiver : value) :
  Object_prototype_property receiver "results" = None.
Proof. reflexivity. Qed.

Lemma Array_prototype_property_results :
  Array_prototype_property "results" = None \/
  Array_prototype_property "results" = Some (VNative "results").
Proof.
  unfold Array_prototype_property.
  destruct (existsb (String.eqb "results") Array_prototype_methods);
    [right | left]; reflexivity.
Qed.

(** What the submission displays for a response body: the array under
    the own key [results] of an object, the empty list in every other
    case. *)
Lemma response_results_cases (data : value) :
  array_or_empty (response_results data) =
  match data with
  | VJson (JObj props) =>
      match assoc "results" props with
      | Some (JArr elems) => elems
      | _ => []
      end
  | _ => []
  end.
Proof.
  destruct data as [| j | name | p]; try reflexivity.
  - destruct j as [| b | n | s | elems | props]; try reflexivity.
    + unfold response_results, find_property, own_property.
      cbn [is_nullish is_undefined is_null orb entries].
      rewrite assoc_index_from_results, Object_prototype_property_results.
      destruct Array_prototype_property_results as [E | E]; rewrite E;
        reflexivity.
    + unfold response_results, find_property, own_property.
      cbn [is_nullish is_undefined is_null orb entries].
      rewrite Object_prototype_property_results.
      destruct (assoc "results" props) as [[| b | n | s | elems | ps]|];
        reflexivity.
  - destruct p; unfold response_results, find_property;
      cbn [is_nullish is_undefined is_null orb];
      rewrite Object_prototype_property_results; [reflexivity|].
    destruct Array_prototype_property_results as [E | E]; rewrite E;
      reflexivity.
Qed.

(** C8.  When the awaited request of [handleMap] resolves, on whatever
    state is current then, the displayed results become exactly the array
    found under [results] in the response body, and the empty list when
    the body is null or undefined, is not an object, has no [results], or
    has a [results] that is not an array; in these cases no error message
    is set and the loading flag is cleared.  The new results do not
    depend on the results shown before: a whole run started from any
    state with any previous results, once its request is out, ends with
    the response's list alone. *)
Theorem handleMap_replaces_results (st : state) (data : value) :
  results (handleMap_finish (Resolved data) st) =
    match data with
    | VJson (JObj props) =>
        match assoc "results" props with
        | Some (JArr elems) => elems
        | _ => []
        end
    | _ => []
    end
  /\ error (handleMap_finish (Resolved data) st) = error st
  /\ loading (handleMap_finish (Resolved data) st) = false
  /\ (forall st0 req st1,
         handleMap_begin st0 = (st1, Some req) ->
         results st1 = [] /\
         results (handleMap st0 (Resolved data)) =
         results (handleMap_finish (Resolved data) st)).
Proof.
  split; [|split; [|split]].
  - simpl. apply response_results_cases.
  - reflexivity.
  - reflexivity.
  - intros st0 req st1 Hb. unfold handleMap. rewrite Hb. split.
    + unfold handleMap_begin in Hb.
      destruct (buildBatchPayload false (setResults [] (setError None st0)))
        as [payload st2] eqn:Hbuild.
      unfold buildBatchPayload in Hbuild.
      destruct payload as [p|]; [|discriminate].
      inversion Hb; subst.
      repeat match type of Hbuild with
             | context [if ?c then _ else _] => destruct c
             | context [match ?x with _ => _ end] => destruct x
             end; inversion Hbuild; subst; reflexivity.
    + reflexivity.
Qed.

(** C10.  An array is a container keyed by its indices: it passes the
    object test, and its entries are its elements under the decimal
    numerals of their positions.  The filter on the entries of a
    top-level array keeps exactly the arrays and the objects (null and
    the scalars are dropped).  Wherever an array is reached within the
    depth bound, its own path is in the extracted set, and so is the path
    of each of its indices when the next depth is still within the
    bound; the same holds for the indices of a document that is itself
    an array, and the batch built from a top-level array with an array
    entry has an item for each index of that entry. *)
Theorem arrays_are_containers (maxDepth : Z) :
  (forall elems : list json,
      is_object (JArr elems) = true /\
      forall k v, In (k, v) (entries (JArr elems)) <->
                  exists i, nth_error elems i = Some v /\ k = Js.index_key i)
  /\ (forall (xs : list json) x,
         In x (documents (JArr xs)) <->
         In x xs /\ ((exists elems, x = JArr elems) \/
                     (exists props, x = JObj props)))
  /\ (forall (obj : json) ks elems,
         at_keys obj ks (JArr elems) -> (level ks <= maxDepth)%Z ->
         In (path_of ks) (extractFieldPaths obj "" 0 maxDepth []) /\
         forall i v, nth_error elems i = Some v ->
                     (level ks + 1 <= maxDepth)%Z ->
                     In (child_path (path_of ks) (Js.index_key i))
                        (extractFieldPaths obj "" 0 maxDepth []))
  /\ (forall (elems : list json) i v,
         nth_error elems i = Some v -> (0 <= maxDepth)%Z ->
         In (Js.index_key i) (extractFieldPaths (JArr elems) "" 0 maxDepth []))
  /\ (forall (silent : bool) (st : state) (xs elems : list json) i v,
         Js.trim (text st) <> "" ->
         JSON_parse (text st) = Some (JArr xs) ->
         In (JArr elems) xs ->
         nth_error elems i = Some v ->
         exists payload,
           fst (buildBatchPayload silent st) = Some payload /\
           In (Js.index_key i) (map BatchInputItem.field payload)).
Proof.
  split; [|split; [|split; [|split]]].
  - intros elems. split; [reflexivity|]. intros k v. simpl.
    rewrite index_from_nth. reflexivity.
  - intros xs x. simpl. rewrite filter_In, is_object_iff. reflexivity.
  - intros obj ks elems Hat Hle. split.
    + eapply extractFieldPaths_reaches; eassumption.
    + intros i v Hn Hle'.
      unfold path_of. rewrite <- path_from_snoc.
      apply extractFieldPaths_reaches with (v := v).
      * eapply at_keys_snoc; [eassumption|].
        simpl. apply index_from_nth. exists i. auto.
      * unfold level in *. rewrite length_app. cbn [length]. lia.
  - intros elems i v Hn Hle.
    apply (extractFieldPaths_reaches (JArr elems) maxDepth
                                     [Js.index_key i] v).
    + constructor. simpl. apply index_from_nth. exists i. auto.
    + unfold level. cbn [length]. lia.
  - intros silent st xs elems i v Hne Hp Hin Hn.
    assert (In (JArr elems) (documents (JArr xs))) as Hdoc
        by (simpl; apply filter_In; split; [assumption | reflexivity]).
    destruct (documents (JArr xs)) as [|first rest] eqn:Hd; [contradiction|].
    rewrite (buildBatchPayload_success silent st _ first rest Hne Hp Hd).
    eexists. split; [reflexivity|].
    rewrite payload_fields. apply collect_fields_In.
    exists (JArr elems). split; [assumption|].
    apply (extractFieldPaths_reaches (JArr elems) 2 [Js.index_key i] v).
    + constructor. simpl. apply index_from_nth. exists i. auto.
    + unfold level. cbn [length]. lia.
Qed.

End BuilderProperties.

(* ================================================================== *)
(** ** Properties of the mappings table: load and row edit *)

Section ListPageProperties.
Context {H : Host}.
Import MappingsListPage.

Lemma list_ascii_of_string_app (a b : string) :
  list_ascii_of_string (a ++ b) =
  list_ascii_of_string a ++ list_ascii_of_string b.
Proof. induction a as [|c a IH]; simpl; [reflexivity | now rewrite IH]. Qed.

Lemma drop_space_all (l r : list ascii) :
  forallb Js.is_space l = true -> Js.drop_space (l ++ r) = Js.drop_space r.
Proof.
  induction l as [|c l IH]; simpl; [reflexivity|].
  intros Hall. apply andb_true_iff in Hall as [Hc Hl].
  rewrite Hc. auto.
Qed.

Lemma drop_space_tight (l : list ascii) :
  match l with c :: _ => negb (Js.is_space c) | [] => false end = true ->
  forall r, Js.drop_space (l ++ r) = l ++ r.
Proof.
  destruct l as [|c l]; simpl; [discriminate|].
  intros Hc r. apply negb_true_iff in Hc. rewrite Hc. reflexivity.
Qed.

Lemma forallb_rev {A : Type} (f : A -> bool) (l : list A) :
  forallb f l = true -> forallb f (rev l) = true.
Proof.
  rewrite !forallb_forall. intros Hall x Hin. apply Hall, in_rev, Hin.
Qed.

(** [trim] strips the white space around a core that has none at its
    ends. *)
Lemma trim_padded (lead core trail : string) :
  all_space lead = true -> all_space trail = true -> tight core = true ->
  Js.trim (lead ++ core ++ trail) = core.
Proof.
  unfold all_space, tight, Js.trim, Js.trim_list.
  intros Hl Ht Hc. apply andb_true_iff in Hc as [Hfirst Hlast].
  rewrite !list_ascii_of_string_app.
  rewrite (drop_space_all _ _ Hl).
  rewrite (drop_space_tight _ Hfirst).
  rewrite rev_app_distr.
  rewrite (drop_space_all _ _ (forallb_rev _ _ Ht)).
  rewrite <- (app_nil_r (rev (list_ascii_of_string core))).
  rewrite (drop_space_tight _ Hlast).
  rewrite app_nil_r, rev_involutive.
  apply string_of_list_ascii_of_string.
Qed.

Lemma tight_truthy (core : string) : tight core = true -> Js.truthy core = true.
Proof. destruct core; [discriminate | reflexivity]. Qed.

Lemma string_length_app (a b : string) :
  String.length (a ++ b) = String.length a + String.length b.
Proof. induction a as [|c a IH]; simpl; [reflexivity | now rewrite IH]. Qed.

Lemma padded_differs (lead core trail : string) :
  lead <> "" \/ trail <> "" -> (lead ++ core ++ trail)%string <> core.
Proof.
  intros Hpad Heq.
  assert (String.length (lead ++ core ++ trail) = String.length core) as Hlen
      by (rewrite Heq; reflexivity).
  rewrite !string_length_app in Hlen.
  destruct Hpad as [Hne | Hne]; [destruct lead | destruct trail];
    try (apply Hne; reflexivity); simpl in Hlen; lia.
Qed.

(** C3.  When [saveEdit] has sent its request for row [id] and the
    request succeeds, then on the rows cached at that time: no further
    effect is issued (no reload), the list keeps its length and order,
    every row whose id equals [id] keeps all its fields except
    [mapped_field_name] and [human_verified], which take the two values
    that were submitted, and every other row is unchanged.  When the
    request fails, the cached rows are exactly as before.  In both cases
    the saving indicator is cleared. *)
Theorem saveEdit_patches_matching_row
        (id : number) (st st1 st' : state) (fx : list effect)
        (p : pending_save) :
  saveEdit_begin id st = (st1, fx, Some p) ->
  fx = [Patch (Api.toPath ("/mappings/" ++ String_number id))
              (save_human p) (save_name p)]
  /\ snd (saveEdit_finish p PatchResolved st') = []
  /\ length (items (fst (saveEdit_finish p PatchResolved st')))
     = length (items st')
  /\ (forall i it,
         nth_error (items st') i = Some it ->
         exists it',
           nth_error (items (fst (saveEdit_finish p PatchResolved st'))) i
           = Some it' /\
           if strict_eq (MappingRow.id it) id
           then MappingRow.mapped_field_name it' = save_name p
                /\ MappingRow.human_verified it' = Some (save_human p)
                /\ MappingRow.id it' = MappingRow.id it
                /\ MappingRow.sourcetype it' = MappingRow.sourcetype it
                /\ MappingRow.source_field it' = MappingRow.source_field it
                /\ MappingRow.mapping_type it' = MappingRow.mapping_type it
                /\ MappingRow.rationale it' = MappingRow.rationale it
                /\ MappingRow.confidence it' = MappingRow.confidence it
                /\ MappingRow.created_at it' = MappingRow.created_at it
           else it' = it)
  /\ items (fst (saveEdit_finish p PatchRejected st')) = items st'
  /\ savingId (fst (saveEdit_finish p PatchResolved st')) = None
  /\ savingId (fst (saveEdit_finish p PatchRejected st')) = None.
Proof.
  intros Hb. unfold saveEdit_begin in Hb.
  destruct (negb (Js.truthy (Js.trim (editMapped st)))); [discriminate|].
  inversion Hb; subst; clear Hb.
  split; [reflexivity|]. split; [reflexivity|].
  split; [apply length_map|].
  split; [|repeat split].
  intros i it Hn. eexists. split.
  - simpl. rewrite nth_error_map, Hn. reflexivity.
  - simpl. destruct (strict_eq (MappingRow.id it) id); [|reflexivity].
    repeat split.
Qed.

(** C6.  When the edited name trims to the empty string, [saveEdit]
    stops before its request: the only effect is the alert, the state is
    unchanged (the row stays in edit, nothing is marked as saving), and
    whatever the server would have answered plays no part. *)
Theorem saveEdit_blank_name_blocked
        (id : number) (st : state) (o : patch_outcome) :
  Js.trim (editMapped st) = "" ->
  saveEdit_begin id st = (st, [Alert "Mapped Field cannot be empty."], None)
  /\ saveEdit id st o = (st, [Alert "Mapped Field cannot be empty."])
  /\ (forall url h name, ~ In (Patch url h name) (snd (saveEdit id st o))).
Proof.
  intros Hb.
  assert (saveEdit_begin id st =
          (st, [Alert "Mapped Field cannot be empty."], None)) as Hbegin
      by (unfold saveEdit_begin; rewrite Hb; reflexivity).
  split; [assumption|].
  assert (saveEdit id st o = (st, [Alert "Mapped Field cannot be empty."]))
    as Hrun by (unfold saveEdit; rewrite Hbegin; reflexivity).
  split; [assumption|].
  intros url h name Hin. rewrite Hrun in Hin. simpl in Hin.
  destruct Hin as [Hin | []]. discriminate.
Qed.

(** C9.  When the edited name is a non-empty core with white space
    before or after it, the request carries the core, and after success
    every cached row with the saved id has the core as its mapped name;
    the core differs from the raw text as soon as some white space
    surrounds it. *)
Theorem saveEdit_sends_trimmed_name
        (id : number) (st st' : state) (lead core trail : string) :
  editMapped st = (lead ++ core ++ trail)%string ->
  all_space lead = true -> all_space trail = true -> tight core = true ->
  saveEdit_begin id st =
    (setSavingId (Some id) st,
     [Patch (Api.toPath ("/mappings/" ++ String_number id))
            (editHuman st) core],
     Some (mkPending id (editHuman st) core))
  /\ (forall i it,
         nth_error (items st') i = Some it ->
         strict_eq (MappingRow.id it) id = true ->
         exists it',
           nth_error (items (fst (saveEdit_finish
                                    (mkPending id (editHuman st) core)
                                    PatchResolved st'))) i = Some it' /\
           MappingRow.mapped_field_name it' = core)
  /\ (lead <> "" \/ trail <> "" -> editMapped st <> core).
Proof.
  intros Hraw Hl Ht Hc. split; [|split].
  - unfold saveEdit_begin.
    rewrite Hraw, (trim_padded _ _ _ Hl Ht Hc), (tight_truthy _ Hc).
    reflexivity.
  - intros i it Hn Hid. eexists. split.
    + simpl. rewrite nth_error_map, Hn. reflexivity.
    + simpl. rewrite Hid. reflexivity.
  - intros Hpad. rewrite Hraw. apply padded_differs. assumption.
Qed.

(** C7.  When the list request is rejected with a response whose status
    is 404, the continuation of [load] sets the not-implemented flag and
    leaves the cached rows (and the total) as they are, whatever the
    state is then; so does a whole run.  A resolved response without rows
    is a different state: the flag is off and the rows are the empty
    list. *)
Theorem load_404_not_implemented (st : state) (status : number) :
  strict_eq status (number_of_nat 404) = true ->
  notImplemented (fst (load_finish (rejected_with status) st)) = true
  /\ items (fst (load_finish (rejected_with status) st)) = items st
  /\ total (fst (load_finish (rejected_with status) st)) = total st
  /\ notImplemented (fst (load st (rejected_with status))) = true
  /\ items (fst (load st (rejected_with status))) = items st
  /\ (forall t,
         notImplemented
           (fst (load st (LoadResolved (mkListResponse (Some []) t)))) = false
         /\ items (fst (load st (LoadResolved (mkListResponse (Some []) t))))
            = []).
Proof.
  intros H404. unfold rejected_with, load, load_finish, load_begin, is_404.
  rewrite H404. simpl. repeat split.
Qed.

End ListPageProperties.

(* ================================================================== *)
(** ** Properties of the CSV export *)

Section CsvProperties.
Context {H : Host}.
Import MappingsListPage.

Lemma quote_shape (v : string) :
  list_ascii_of_string (quote v) =
  Js.dquote :: list_ascii_of_string (doubled v) ++ [Js.dquote].
Proof.
  unfold quote, doubled. simpl. f_equal.
  rewrite list_ascii_of_string_app. reflexivity.
Qed.

Lemma read_inside_doubled (v : string) :
  forall cur row rest,
    read_csv_from Inside cur row (list_ascii_of_string (doubled v) ++ rest) =
    read_csv_from Inside (rev (list_ascii_of_string v) ++ cur) row rest.
Proof.
  unfold doubled.
  induction v as [|c v IH]; intros cur row rest; [reflexivity|].
  cbn [Js.replaceAll]. destruct (Ascii.eqb c Js.dquote) eqn:Hc.
  - apply Ascii.eqb_eq in Hc. subst c.
    cbn [append list_ascii_of_string app read_csv_from].
    rewrite Ascii.eqb_refl. rewrite IH.
    cbn [rev]. rewrite <- app_assoc. reflexivity.
  - cbn [list_ascii_of_string app read_csv_from]. rewrite Hc, IH.
    cbn [rev]. rewrite <- app_assoc. reflexivity.
Qed.

Lemma read_quoted (v : string) (row : list string) (rest : list ascii) :
  read_csv_from Expect [] row (list_ascii_of_string (quote v) ++ rest) =
  read_csv_from Closing (rev (list_ascii_of_string v)) row rest.
Proof.
  rewrite quote_shape. cbn [app read_csv_from]. rewrite Ascii.eqb_refl.
  rewrite <- app_assoc, read_inside_doubled, app_nil_r.
  cbn [app read_csv_from]. rewrite Ascii.eqb_refl. reflexivity.
Qed.

Lemma closing_field (v : string) :
  string_of_list_ascii (rev (rev (list_ascii_of_string v))) = v.
Proof. rewrite rev_involutive. apply string_of_list_ascii_of_string. Qed.

Lemma closing_comma (cur : list ascii) (row : list string) (r : list ascii) :
  read_csv_from Closing cur row (","%char :: r) =
  read_csv_from Expect [] (string_of_list_ascii (rev cur) :: row) r.
Proof. reflexivity. Qed.

Lemma closing_newline (cur : list ascii) (row : list string) (r : list ascii) :
  read_csv_from Closing cur row ("010"%char :: r) =
  option_map (cons (rev (string_of_list_ascii (rev cur) :: row)))
             (read_csv_from Expect [] [] r).
Proof. reflexivity. Qed.

Lemma closing_end (cur : list ascii) (row : list string) :
  read_csv_from Closing cur row [] =
  Some [rev (string_of_list_ascii (rev cur) :: row)].
Proof. reflexivity. Qed.

(** Reading back one line, followed by nothing or by a line feed and
    more text. *)
Lemma read_line (cols : list string) :
  forall c row,
    read_csv_from Expect [] row
      (list_ascii_of_string (csv_line (c :: cols))) =
    Some [rev row ++ c :: cols]
    /\ forall more,
      read_csv_from Expect [] row
        (list_ascii_of_string (csv_line (c :: cols)) ++ "010"%char :: more) =
      option_map (cons (rev row ++ c :: cols))
                 (read_csv_from Expect [] [] more).
Proof.
  unfold csv_line, Js.join.
  induction cols as [|c' cols IH]; intros c row.
  - cbn [map String.concat]. split.
    + rewrite <- (app_nil_r (list_ascii_of_string (quote c))).
      rewrite read_quoted, closing_end, closing_field. reflexivity.
    + intros more.
      rewrite read_quoted, closing_newline, closing_field. reflexivity.
  - change (String.concat "," (map quote (c :: c' :: cols)))
      with (quote c ++ "," ++ String.concat "," (map quote (c' :: cols)))%string.
    rewrite !list_ascii_of_string_app.
    change (list_ascii_of_string ",") with [","%char].
    destruct (IH c' (c :: row)) as [IH1 IH2].
    assert (rev (c :: row) ++ c' :: cols = rev row ++ c :: c' :: cols) as Hr
        by (cbn [rev]; rewrite <- app_assoc; reflexivity).
    split.
    + rewrite read_quoted. cbn [app].
      rewrite closing_comma, closing_field, IH1, Hr. reflexivity.
    + intros more. rewrite <- !app_assoc. rewrite read_quoted. cbn [app].
      rewrite closing_comma, closing_field, IH2, Hr. reflexivity.
Qed.

(** Reading back a table with no empty record. *)
Lemma read_table (table : list (list string)) :
  table <> [] -> Forall (fun cols => cols <> []) table ->
  read_csv (Js.join Js.newline (map csv_line table)) = Some table.
Proof.
  unfold read_csv, Js.join.
  induction table as [|cols table IH]; intros Hne Hall; [contradiction|].
  inversion Hall as [|x l Hcols Hrest]; subst.
  destruct cols as [|c cols]; [contradiction|].
  destruct table as [|cols' table].
  - cbn [map String.concat].
    apply (proj1 (read_line cols c [])).
  - change (String.concat Js.newline (map csv_line ((c :: cols) :: cols' :: table)))
      with (csv_line (c :: cols) ++ Js.newline
              ++ String.concat Js.newline (map csv_line (cols' :: table)))%string.
    rewrite !list_ascii_of_string_app.
    change (list_ascii_of_string Js.newline) with ["010"%char]. cbn [app].
    rewrite (proj2 (read_line cols c [])).
    rewrite IH; [reflexivity | discriminate | assumption].
Qed.


Lemma split_length (c : ascii) (s : string) :
  length (Js.split c s) = S (count_char c s).
Proof.
  induction s as [|a s IH]; [reflexivity|].
  cbn [Js.split count_char]. destruct (Ascii.eqb a c).
  - cbn [length]. rewrite IH. reflexivity.
  - destruct (Js.split c s) as [|w ws]; [discriminate IH|].
    cbn [length] in *. rewrite IH. reflexivity.
Qed.







End CsvProperties.

(* ================================================================== *)
(** ** Further properties: [toPath] and the path extractor *)

Section MoreExtractorProperties.
Context {H : Host}.
Import MapFromJsonPage.

(** X1.  Whatever it is given, [toPath] returns a path that starts with
    a slash, and applying it again changes nothing. *)
Theorem toPath_rooted (p : string) :
  Js.startsWith "/" (Api.toPath p) = true
  /\ Api.toPath (Api.toPath p) = Api.toPath p.
Proof.
  assert (Js.startsWith "/" (Api.toPath p) = true) as Hs.
  { unfold Api.toPath. destruct (Js.startsWith "/" p) eqn:E;
      [exact E | destruct p; reflexivity]. }
  split; [exact Hs|].
  unfold Api.toPath at 1. rewrite Hs. reflexivity.
Qed.

(** X2.  On a value without entries (null, a scalar, an empty object or
    array) and on any value once the depth is above the maximum, the
    walker returns the set it was given. *)
Theorem extractFieldPaths_nothing_to_add
        (obj : json) (prefix : string) (depth maxDepth : Z)
        (out : list string) :
  entries obj = [] \/ (maxDepth < depth)%Z ->
  extractFieldPaths obj prefix depth maxDepth out = out.
Proof.
  intros Hcase. rewrite extractFieldPaths_unfold.
  destruct (depth >? maxDepth)%Z eqn:Hd; [reflexivity|].
  destruct Hcase as [He | Hlt]; [rewrite He; reflexivity | lia].
Qed.

Lemma set_add_extends (x : string) (s : list string) :
  exists added, Js.set_add x s = s ++ added.
Proof.
  unfold Js.set_add. destruct (existsb (String.eqb x) s).
  - exists []. symmetry. apply app_nil_r.
  - exists [x]. reflexivity.
Qed.

Lemma extractFieldPaths_extends :
  forall (obj : json) prefix depth maxDepth out,
  exists added, extractFieldPaths obj prefix depth maxDepth out = out ++ added.
Proof.
  induction obj as [obj IH] using json_entries_ind.
  intros prefix depth maxDepth out.
  rewrite extractFieldPaths_unfold.
  destruct (depth >? maxDepth)%Z;
    [exists []; symmetry; apply app_nil_r|].
  assert (forall es, incl es (entries obj) -> forall out,
            exists added,
              fold_left (visit prefix depth maxDepth) es out = out ++ added)
    as Hloop.
  { induction es as [|[k c] es IHes]; intros Hincl out'; simpl.
    - exists []. symmetry. apply app_nil_r.
    - assert (exists a1, visit prefix depth maxDepth out' (k, c) = out' ++ a1)
        as [a1 Ha1].
      { unfold visit; simpl.
        destruct (set_add_extends (child_path prefix k) out') as [a0 Ha0].
        destruct (is_object c).
        - destruct (IH k c (Hincl _ (or_introl eq_refl))
                       (child_path prefix k) (depth + 1)%Z maxDepth
                       (Js.set_add (child_path prefix k) out')) as [a Ha].
          exists (a0 ++ a). rewrite Ha, Ha0, app_assoc. reflexivity.
        - exists a0. exact Ha0. }
      destruct (IHes (fun x Hx => Hincl x (or_intror Hx))
                     (visit prefix depth maxDepth out' (k, c))) as [a2 Ha2].
      exists (a1 ++ a2). rewrite Ha2, Ha1, app_assoc. reflexivity. }
  apply Hloop. apply incl_refl.
Qed.

(** X3.  The walker only appends: the set it returns starts with the set
    it was given, in the same order, and has no duplicate when that set
    had none. *)
Theorem extractFieldPaths_appends
        (obj : json) (prefix : string) (depth maxDepth : Z)
        (out : list string) :
  (exists added,
      extractFieldPaths obj prefix depth maxDepth out = out ++ added)
  /\ (NoDup out -> NoDup (extractFieldPaths obj prefix depth maxDepth out)).
Proof.
  split; [apply extractFieldPaths_extends | apply extractFieldPaths_NoDup].
Qed.

(** X4.  Raising the maximum depth never removes a path: a path
    extracted with one maximum is extracted with every larger one. *)
Theorem extractFieldPaths_monotone
        (obj : json) (prefix : string) (depth m m' : Z)
        (out : list string) (p : string) :
  (m <= m')%Z ->
  In p (extractFieldPaths obj prefix depth m out) ->
  In p (extractFieldPaths obj prefix depth m' out).
Proof.
  intros Hle Hin. apply extractFieldPaths_In.
  apply extractFieldPaths_In in Hin.
  destruct Hin as [Hin | (ks & v & Hat & Hd & Hp)]; [left; assumption|].
  right. exists ks, v. split; [assumption|]. split; [lia | assumption].
Qed.



Lemma split_nonempty (c : ascii) (s : string) : Js.split c s <> [].
Proof.
  intros Hs. pose proof (split_length c s) as Hl. rewrite Hs in Hl.
  discriminate Hl.
Qed.

Lemma split_app_sep (c : ascii) (a b : string) :
  Js.split c (a ++ String c b) = Js.split c a ++ Js.split c b.
Proof.
  induction a as [|x a IH].
  - cbn [append Js.split]. rewrite Ascii.eqb_refl. reflexivity.
  - cbn [append Js.split]. destruct (Ascii.eqb x c); rewrite IH.
    + reflexivity.
    + destruct (Js.split c a) as [|w ws] eqn:Hs;
        [exfalso; exact (split_nonempty c a Hs) | reflexivity].
Qed.

Lemma split_dotless (k : string) :
  dotless k = true -> Js.split "." k = [k].
Proof.
  unfold dotless. induction k as [|x k IH]; [reflexivity|].
  cbn [count_char Js.split]. destruct (Ascii.eqb x "."); [discriminate|].
  intros Hk. rewrite (IH Hk). reflexivity.
Qed.

Lemma split_path_from (ks : list string) :
  forall prefix,
    Js.truthy prefix = true ->
    Forall (fun k => dotless k = true) ks ->
    Js.split "." (path_from prefix ks) = Js.split "." prefix ++ ks.
Proof.
  induction ks as [|k ks IH]; intros prefix Ht Hall.
  - symmetry. apply app_nil_r.
  - inversion Hall as [|k0 ks0 Hk Hks]; subst.
    unfold path_from. cbn [fold_left].
    fold (path_from (child_path prefix k) ks).
    assert (child_path prefix k = prefix ++ String "." k)%string as Hc
        by (unfold child_path; rewrite Ht; reflexivity).
    rewrite IH; [| rewrite Hc; destruct prefix; [discriminate | reflexivity]
                 | assumption].
    rewrite Hc, split_app_sep, (split_dotless k Hk), <- app_assoc.
    reflexivity.
Qed.

Lemma assoc_In (k : string) (c : json) (l : list (string * json)) :
  assoc k l = Some c -> In (k, c) l.
Proof.
  induction l as [|[k' v] l IH]; simpl; [discriminate|].
  destruct (String.eqb k' k) eqn:E.
  - apply String.eqb_eq in E. intros Hs. left. congruence.
  - intros Hs. right. auto.
Qed.

Lemma walk_own_at_keys (ks : list string) :
  forall (obj v : json) k,
    walk_own obj (k :: ks) = Some v -> at_keys obj (k :: ks) v.
Proof.
  induction ks as [|k' ks IH]; intros obj v k Hw; cbn [walk_own] in Hw.
  - destruct (assoc k (entries obj)) as [c|] eqn:Ha; [|discriminate].
    inversion Hw; subst. constructor. apply assoc_In. assumption.
  - destruct (assoc k (entries obj)) as [c|] eqn:Ha; [|discriminate].
    eapply at_keys_step; [apply assoc_In; eassumption|].
    apply IH. exact Hw.
Qed.

Lemma getByPath_step_found (ks : list string) :
  forall obj v : json,
    walk_own obj ks = Some v ->
    fold_left getByPath_step ks (VJson obj) = VJson v.
Proof.
  induction ks as [|k ks IH]; intros obj v Hw; cbn [walk_own] in Hw.
  - inversion Hw; subst. reflexivity.
  - destruct (assoc k (entries obj)) as [c|] eqn:Ha; [|discriminate].
    cbn [fold_left]. rewrite (find_property_own obj c k Ha). apply IH.
    exact Hw.
Qed.

(** X6.  Extraction and lookup agree on ordinary keys: when the keys
    [k :: ks] (none with a dot, the first not empty) lead through own
    entries of [obj] to a value, [getByPath] on the dot-joined path
    returns that value, and within three levels the path is one of the
    paths the extractor lists with its defaults. *)
Theorem getByPath_finds_extracted
        (obj v : json) (k : string) (ks : list string) :
  k <> "" ->
  Forall (fun k => dotless k = true) (k :: ks) ->
  walk_own obj (k :: ks) = Some v ->
  getByPath (VJson obj) (path_of (k :: ks)) = VJson v
  /\ ((level (k :: ks) <= 2)%Z ->
      In (path_of (k :: ks)) (extractFieldPaths_default obj)).
Proof.
  intros Hk Hall Hw. split.
  - unfold getByPath.
    assert (is_nullish (VJson obj) = false) as Hn.
    { destruct obj; try reflexivity. cbn [walk_own entries assoc] in Hw.
      discriminate Hw. }
    rewrite Hn.
    assert (Js.split "." (path_of (k :: ks)) = k :: ks) as Hs.
    { inversion Hall as [|k0 ks0 Hd Hks]; subst.
      unfold path_of, path_from. cbn [fold_left].
      change (child_path "" k) with k. fold (path_from k ks).
      rewrite split_path_from;
        [| destruct k; [contradiction | reflexivity] | assumption].
      rewrite (split_dotless k Hd). reflexivity. }
    rewrite Hs. apply getByPath_step_found. exact Hw.
  - intros Hle. unfold extractFieldPaths_default.
    eapply extractFieldPaths_reaches; [|exact Hle].
    apply walk_own_at_keys. exact Hw.
Qed.

End MoreExtractorProperties.

(* ================================================================== *)
(** ** Further properties: the batch request builder and [handleMap] *)

Section MoreBuilderProperties.
Context {H : Host}.
Import MapFromJsonPage.

(** The two ways [buildBatchPayload] can end. *)
Lemma buildBatchPayload_ends (silent : bool) (st : state) :
  (fst (buildBatchPayload silent st) = None /\
   (snd (buildBatchPayload silent st) = st \/
    silent = false /\
    exists msg, snd (buildBatchPayload silent st) = setError (Some msg) st))
  \/ (exists p, buildBatchPayload silent st = (Some p, st)).
Proof.
  unfold buildBatchPayload.
  destruct (negb (Js.truthy (text st)) || String.eqb (Js.trim (text st)) "");
    [left; split; [reflexivity | left; reflexivity]|].
  destruct (JSON_parse (text st)) as [parsed|].
  - destruct (documents parsed) as [|first rest].
    + left. split; [reflexivity|]. destruct silent;
        [left; reflexivity | right; split; [reflexivity | eexists; reflexivity]].
    + right. eexists. reflexivity.
  - left. split; [reflexivity|]. destruct silent;
      [left; reflexivity | right; split; [reflexivity | eexists; reflexivity]].
Qed.

(** The payload depends on the text and the sourcetype only. *)
Lemma buildBatchPayload_payload_ext (s s' : bool) (st st' : state) :
  text st = text st' -> sourcetype st = sourcetype st' ->
  fst (buildBatchPayload s st) = fst (buildBatchPayload s' st').
Proof.
  intros Ht Hs. unfold buildBatchPayload. rewrite <- Ht, <- Hs.
  destruct (negb (Js.truthy (text st)) || String.eqb (Js.trim (text st)) "");
    [reflexivity|].
  destruct (JSON_parse (text st)) as [parsed|]; [|reflexivity].
  destruct (documents parsed); reflexivity.
Qed.


(** X10.  The preview and the submission build the same payload: both
    modes return the same result; the silent mode never changes the
    state; the non-silent mode changes it only by setting an error
    message, and only when it returns no payload. *)
Theorem buildBatchPayload_silent_same_payload (st : state) :
  fst (buildBatchPayload true st) = fst (buildBatchPayload false st)
  /\ snd (buildBatchPayload true st) = st
  /\ (snd (buildBatchPayload false st) = st
      \/ fst (buildBatchPayload false st) = None /\
         exists msg,
           snd (buildBatchPayload false st) = setError (Some msg) st).
Proof.
  split; [apply buildBatchPayload_payload_ext; reflexivity|]. split.
  - destruct (buildBatchPayload_ends true st)
      as [[_ [Hs | [Hf _]]] | [p Hp]];
      [exact Hs | discriminate Hf | rewrite Hp; reflexivity].
  - destruct (buildBatchPayload_ends false st)
      as [[Hn [Hs | [_ Hm]]] | [p Hp]].
    + left. exact Hs.
    + right. split; assumption.
    + left. rewrite Hp. reflexivity.
Qed.

Lemma fold_extract_extends (arr : list json) :
  forall out,
  exists added,
    fold_left (fun fields ev => extractFieldPaths ev "" 0 2 fields) arr out
    = out ++ added.
Proof.
  induction arr as [|d arr IH]; intros out; simpl.
  - exists []. symmetry. apply app_nil_r.
  - destruct (extractFieldPaths_extends d "" 0%Z 2%Z out) as [a1 Ha1].
    destruct (IH (extractFieldPaths d "" 0 2 out)) as [a2 Ha2].
    exists (a1 ++ a2). rewrite Ha2, Ha1, app_assoc. reflexivity.
Qed.

(** X12.  In a built payload the fields of the first document come
    first, in the order the extractor lists them; the fields that only
    later documents have follow. *)
Theorem buildBatchPayload_first_document_first
        (silent : bool) (st : state) (parsed first : json)
        (rest : list json) :
  Js.trim (text st) <> "" ->
  JSON_parse (text st) = Some parsed ->
  documents parsed = first :: rest ->
  exists payload added,
    buildBatchPayload silent st = (Some payload, st)
    /\ map BatchInputItem.field payload
       = extractFieldPaths_default first ++ added.
Proof.
  intros Hne Hp Hd.
  rewrite (buildBatchPayload_success silent st _ first rest Hne Hp Hd).
  destruct (fold_extract_extends rest (extractFieldPaths_default first))
    as [added Ha].
  eexists. exists added. split; [reflexivity|].
  rewrite payload_fields. exact Ha.
Qed.

(** X13.  A text that parses to a single object is one document: the
    payload has exactly the fields the extractor lists for it, each with
    the component's sourcetype and described from that object.  An
    object without keys gives the empty payload, not an error. *)
Theorem buildBatchPayload_single_object
        (silent : bool) (st : state) (props : list (string * json)) :
  Js.trim (text st) <> "" ->
  JSON_parse (text st) = Some (JObj props) ->
  buildBatchPayload silent st =
    (Some (map (fun f => BatchInputItem.mk (sourcetype st) f
                           (describe (JObj props) f))
               (extractFieldPaths_default (JObj props))),
     st)
  /\ (props = [] -> buildBatchPayload silent st = (Some [], st)).
Proof.
  intros Hne Hp.
  assert (buildBatchPayload silent st =
          (Some (map (fun f => BatchInputItem.mk (sourcetype st) f
                                 (describe (JObj props) f))
                     (extractFieldPaths_default (JObj props))),
           st)) as Hb
      by (apply (buildBatchPayload_success silent st _ (JObj props) []
                   Hne Hp eq_refl)).
  split; [exact Hb|]. intros ->. exact Hb.
Qed.

(** X14.  After a run of [handleMap], however the request settles and
    also when none is sent, the page never holds both results and an
    error: the results are empty or the error is unset. *)
Theorem handleMap_results_or_error (st : state) (o : outcome) :
  results (handleMap st o) = [] \/ error (handleMap st o) = None.
Proof.
  unfold handleMap, handleMap_begin.
  destruct (buildBatchPayload_ends false (setResults [] (setError None st)))
    as [[Hn [Hs | [_ [msg Hm]]]] | [p Hp]].
  - destruct (buildBatchPayload false (setResults [] (setError None st)))
      as [payload st2]. simpl in Hn, Hs. subst. left. reflexivity.
  - destruct (buildBatchPayload false (setResults [] (setError None st)))
      as [payload st2]. simpl in Hn, Hm. subst. left. reflexivity.
  - rewrite Hp. destruct o; [right | left]; reflexivity.
Qed.



(** X16.  [handleMap] sends exactly what the preview shows: when the
    silent build on the current state yields a payload, the handler
    clears error and results, sets the loading flag and posts that
    payload to [/map-batch] with the current limit and model; when it
    yields none, no request is issued, the results are cleared and the
    loading flag is not touched. *)
Theorem handleMap_sends_preview (st : state) :
  match fst (buildBatchPayload true st) with
  | Some p =>
      handleMap_begin st =
      (setLoading true (setResults [] (setError None st)),
       Some (mkPost "/map-batch"
                    [("limit", String_number (limit st)); ("model", model st)]
                    p))
  | None =>
      snd (handleMap_begin st) = None
      /\ results (fst (handleMap_begin st)) = []
      /\ loading (fst (handleMap_begin st)) = loading st
  end.
Proof.
  rewrite (buildBatchPayload_payload_ext true false st
             (setResults [] (setError None st)) eq_refl eq_refl).
  unfold handleMap_begin.
  destruct (buildBatchPayload_ends false (setResults [] (setError None st)))
    as [[Hn [Hs | [_ [msg Hm]]]] | [p Hp]].
  - destruct (buildBatchPayload false (setResults [] (setError None st)))
      as [payload st2]. simpl in Hn, Hs. subst. simpl. auto.
  - destruct (buildBatchPayload false (setResults [] (setError None st)))
      as [payload st2]. simpl in Hn, Hm. subst. simpl. auto.
  - rewrite Hp. reflexivity.
Qed.

End MoreBuilderProperties.

(* ================================================================== *)
(** ** Further properties: the mappings table *)

Section MoreListPageProperties.
Context {H : Host}.
Import MappingsListPage.


Lemma prefix_iff (t s : string) :
  String.prefix t s = true <-> exists b, s = (t ++ b)%string.
Proof.
  revert s. induction t as [|c t IH]; intros s.
  - split; [intros _; exists s; reflexivity | intros _; destruct s; reflexivity].
  - destruct s as [|d s]; cbn [String.prefix append].
    + split; [discriminate | intros [b Hb]; discriminate Hb].
    + destruct (ascii_dec c d) as [-> | Hne].
      * rewrite IH. split; intros [b Hb]; exists b; congruence.
      * split; [discriminate|]. intros [b Hb]. congruence.
Qed.

(** [includes] is the substring test. *)
Lemma includes_iff (s t : string) :
  Js.includes s t = true <-> exists a b, s = (a ++ t ++ b)%string.
Proof.
  induction s as [|c s IH]; cbn [Js.includes].
  - rewrite orb_false_r, prefix_iff. split.
    + intros [b Hb]. exists EmptyString, b. exact Hb.
    + intros (a & b & Hab). destruct a; [exists b; exact Hab|].
      discriminate Hab.
  - rewrite orb_true_iff, prefix_iff, IH. split.
    + intros [[b Hb] | (a & b & Hab)].
      * exists EmptyString, b. exact Hb.
      * exists (String c a), b. cbn [append]. rewrite Hab. reflexivity.
    + intros (a & b & Hab). destruct a as [|x a].
      * left. exists b. exact Hab.
      * right. exists a, b. cbn [append] in Hab. congruence.
Qed.

(** X18.  A row is shown in the filtered view exactly when it is cached
    and the query is empty or occurs, compared in lower case, somewhere
    inside its sourcetype, its source field or its mapped name; the
    view keeps the order of the cached rows. *)
Theorem filtered_rows (st : state) :
  (forall r,
      In r (filtered st) <->
      In r (items st) /\
      (q st = "" \/
       exists f a b,
         In f [MappingRow.sourcetype r; MappingRow.source_field r;
               MappingRow.mapped_field_name r] /\
         Js.toLowerCase f = (a ++ Js.toLowerCase (q st) ++ b)%string))
  /\ (exists keep, filtered st = filter keep (items st)).
Proof.
  unfold filtered. destruct (q st) as [|c qs] eqn:Hq; cbn [Js.truthy negb].
  - split.
    + intros r. split; [intros Hin; split; [exact Hin | left; reflexivity]
                       | tauto].
    + exists (fun _ => true). symmetry. apply forallb_filter_id.
      apply forallb_forall. reflexivity.
  - split; [|eexists; reflexivity].
    intros r. rewrite filter_In, !orb_true_iff, !includes_iff. split.
    + intros [Hin Hm]. split; [exact Hin|]. right.
      destruct Hm as [[(a & b & Hab) | (a & b & Hab)] | (a & b & Hab)];
        eexists; exists a, b; (split; [|exact Hab]); simpl; auto.
    + intros [Hin [Hempty | (f & a & b & Hf & Hab)]]; [discriminate|].
      split; [exact Hin|].
      destruct Hf as [<- | [<- | [<- | []]]]; eauto.
Qed.

Lemma lower_char_idempotent (c : ascii) :
  Js.lower_char (Js.lower_char c) = Js.lower_char c.
Proof.
  destruct c as [[|] [|] [|] [|] [|] [|] [|] [|]]; reflexivity.
Qed.

Lemma toLowerCase_idempotent (s : string) :
  Js.toLowerCase (Js.toLowerCase s) = Js.toLowerCase s.
Proof.
  induction s as [|c s IH]; [reflexivity|].
  cbn [Js.toLowerCase]. rewrite lower_char_idempotent, IH. reflexivity.
Qed.

(** X19.  The filter ignores the case of the query: two states with the
    same cached rows whose queries agree in lower case show the same
    rows; in particular a query and its lower-case form do. *)
Theorem filtered_case_insensitive (st1 st2 : state) :
  items st1 = items st2 ->
  Js.toLowerCase (q st1) = Js.toLowerCase (q st2) ->
  filtered st1 = filtered st2.
Proof.
  intros Hi Hq. unfold filtered. rewrite Hi, Hq.
  destruct (q st1) as [|c1 s1], (q st2) as [|c2 s2];
    try reflexivity; discriminate Hq.
Qed.

(** X20.  The edit session is a single slot: starting an edit on a
    second row replaces the first edit as if it had never been started,
    cancelling after starting an edit gives the state cancelling alone
    gives, and neither changes the cached rows. *)
Theorem edit_session_single_slot (r1 r2 : MappingRow.t) (st : state) :
  startEdit r2 (startEdit r1 st) = startEdit r2 st
  /\ cancelEdit (startEdit r1 st) = cancelEdit st
  /\ items (startEdit r1 st) = items st
  /\ items (cancelEdit st) = items st
  /\ editId (startEdit r1 st) = Some (MappingRow.id r1)
  /\ editMapped (startEdit r1 st) = MappingRow.mapped_field_name r1.
Proof. repeat split. Qed.

(** X21.  A failed save keeps the edit open for a retry: after the
    rejection the rows, the edited row id, the typed name and the
    checkbox are as before and nothing is marked as saving, while the
    error is logged and an alert is shown; starting the save again then
    issues the same request.  A successful save closes the edit. *)
Theorem saveEdit_rejected_keeps_edit (id : number) (st : state) :
  items (fst (saveEdit id st PatchRejected)) = items st
  /\ editId (fst (saveEdit id st PatchRejected)) = editId st
  /\ editMapped (fst (saveEdit id st PatchRejected)) = editMapped st
  /\ editHuman (fst (saveEdit id st PatchRejected)) = editHuman st
  /\ snd (saveEdit_begin id (fst (saveEdit id st PatchRejected)))
     = snd (saveEdit_begin id st)
  /\ snd (fst (saveEdit_begin id (fst (saveEdit id st PatchRejected))))
     = snd (fst (saveEdit_begin id st))
  /\ (forall p, snd (saveEdit_begin id st) = Some p ->
                savingId (fst (saveEdit id st PatchRejected)) = None
                /\ snd (saveEdit id st PatchRejected) =
                   snd (fst (saveEdit_begin id st))
                   ++ [ConsoleError;
                       Alert "Failed to update. See console for details."]
                /\ editId (fst (saveEdit id st PatchResolved)) = None).
Proof.
  unfold saveEdit, saveEdit_begin.
  destruct (negb (Js.truthy (Js.trim (editMapped st)))) eqn:E; simpl;
    rewrite ?E; simpl; repeat split; try discriminate.
Qed.

Lemma drop_space_nil_iff (l : list ascii) :
  Js.drop_space l = [] <-> forallb Js.is_space l = true.
Proof.
  induction l as [|c l IH]; simpl; [tauto|].
  destruct (Js.is_space c); simpl; [exact IH|].
  split; discriminate.
Qed.

Lemma drop_space_split (l : list ascii) :
  exists pre, l = pre ++ Js.drop_space l /\ forallb Js.is_space pre = true.
Proof.
  induction l as [|c l (pre & Hl & Hp)]; simpl.
  - exists []. auto.
  - destruct (Js.is_space c) eqn:E.
    + exists (c :: pre). simpl. rewrite E, Hp. split; [congruence | reflexivity].
    + exists []. auto.
Qed.

Lemma drop_space_head (l : list ascii) :
  match Js.drop_space l with
  | c :: _ => Js.is_space c = false
  | [] => True
  end.
Proof.
  induction l as [|c l IH]; simpl; [exact I|].
  destruct (Js.is_space c) eqn:E; [exact IH | exact E].
Qed.

Lemma forallb_rev_iff (l : list ascii) :
  forallb Js.is_space (rev l) = forallb Js.is_space l.
Proof.
  apply eq_true_iff_eq. rewrite !forallb_forall.
  split; intros Hall x Hin; apply Hall.
  - apply -> in_rev. exact Hin.
  - apply <- in_rev. exact Hin.
Qed.

Lemma trim_list_nil_iff (l : list ascii) :
  Js.trim_list l = [] <-> forallb Js.is_space l = true.
Proof.
  unfold Js.trim_list.
  assert (forall x : list ascii, rev x = [] <-> x = []) as Hrev.
  { intros x. split; [|intros ->; reflexivity].
    intros Hx. apply (f_equal (@rev ascii)) in Hx.
    rewrite rev_involutive in Hx. exact Hx. }
  rewrite Hrev, drop_space_nil_iff, forallb_rev_iff. split.
  - intros Hall. apply drop_space_nil_iff.
    pose proof (drop_space_head l) as Hh.
    destruct (Js.drop_space l) as [|c x]; [reflexivity|].
    simpl in Hall. rewrite Hh in Hall. discriminate Hall.
  - intros Hall. apply drop_space_nil_iff in Hall. rewrite Hall.
    reflexivity.
Qed.

Lemma string_of_list_nil_iff (l : list ascii) :
  string_of_list_ascii l = "" <-> l = [].
Proof. destruct l; simpl; split; intros Hl; try reflexivity; discriminate. Qed.

(** The trimmed text is empty or has no white space at either end. *)
Lemma trim_tight_or_empty (s : string) :
  Js.trim s = "" \/ tight (Js.trim s) = true.
Proof.
  unfold Js.trim, tight.
  rewrite list_ascii_of_string_of_list_ascii.
  unfold Js.trim_list.
  set (x := Js.drop_space (list_ascii_of_string s)).
  pose proof (drop_space_head (list_ascii_of_string s)) as Hx. fold x in Hx.
  pose proof (drop_space_head (rev x)) as Hy.
  destruct (drop_space_split (rev x)) as (pre & Hsplit & _).
  destruct (Js.drop_space (rev x)) as [|c y]; [left; reflexivity|].
  right. rewrite rev_involutive.
  apply (f_equal (@rev ascii)) in Hsplit.
  rewrite rev_involutive, rev_app_distr in Hsplit.
  cbn [rev] in *.
  destruct (rev y ++ [c]) as [|d z] eqn:Hz;
    [destruct (rev y); discriminate Hz|].
  rewrite Hsplit in Hx. cbn [app] in Hx.
  rewrite Hx, Hy. reflexivity.
Qed.

(** X22.  [saveEdit] stops before its request exactly when the typed
    name consists of white space only (the empty name included). *)
Theorem saveEdit_blocked_iff_blank (id : number) (st : state) :
  snd (saveEdit_begin id st) = None <-> all_space (editMapped st) = true.
Proof.
  unfold saveEdit_begin, all_space.
  rewrite <- trim_list_nil_iff, <- string_of_list_nil_iff.
  fold (Js.trim (editMapped st)).
  destruct (Js.trim (editMapped st)) as [|c s]; simpl;
    split; intros Hs; try reflexivity; discriminate Hs.
Qed.

(** X23.  Whatever was typed, the name a save request carries is not
    empty, has no white space at its ends, is the trimmed text, and is
    what the success branch writes into the row; trimming it again
    changes nothing. *)
Theorem saveEdit_name_is_tight
        (id : number) (st st1 : state) (fx : list effect) (p : pending_save) :
  saveEdit_begin id st = (st1, fx, Some p) ->
  tight (save_name p) = true
  /\ save_name p = Js.trim (editMapped st)
  /\ Js.trim (save_name p) = save_name p
  /\ fx = [Patch (Api.toPath ("/mappings/" ++ String_number id))
                 (editHuman st) (save_name p)].
Proof.
  unfold saveEdit_begin. intros Hb.
  destruct (Js.truthy (Js.trim (editMapped st))) eqn:Ht; [|discriminate Hb].
  simpl in Hb. inversion Hb; subst; clear Hb. cbn [save_name].
  assert (tight (Js.trim (editMapped st)) = true) as Htight.
  { destruct (trim_tight_or_empty (editMapped st)) as [He | Hti];
      [rewrite He in Ht; discriminate Ht | exact Hti]. }
  split; [exact Htight|]. split; [reflexivity|]. split; [|reflexivity].
  apply (trim_padded "" (Js.trim (editMapped st)) "" eq_refl eq_refl)
    in Htight.
  cbn [append] in Htight.
  assert (forall s : string, (s ++ "")%string = s) as Happ
      by (induction s as [|c s IH]; simpl; [reflexivity | now rewrite IH]).
  rewrite Happ in Htight. exact Htight.
Qed.

(** X24.  Saving an edit in which nothing was changed sends the row's
    own name and its verified flag (false when the row had none), and
    the success branch rewrites a row that already had a flag into
    itself: provided the row's name has no white space at its ends. *)
Theorem saveEdit_untouched_row (r : MappingRow.t) (st : state) :
  tight (MappingRow.mapped_field_name r) = true ->
  exists b,
    b = match MappingRow.human_verified r with Some v => v | None => false end
    /\ saveEdit_begin (MappingRow.id r) (startEdit r st) =
       (setSavingId (Some (MappingRow.id r)) (startEdit r st),
        [Patch (Api.toPath ("/mappings/" ++ String_number (MappingRow.id r)))
               b (MappingRow.mapped_field_name r)],
        Some (mkPending (MappingRow.id r) b (MappingRow.mapped_field_name r)))
    /\ (MappingRow.human_verified r = Some b ->
        patch_row (mkPending (MappingRow.id r) b
                             (MappingRow.mapped_field_name r)) r = r).
Proof.
  intros Ht. eexists. split; [reflexivity|]. split.
  - unfold saveEdit_begin. cbn [startEdit editMapped editHuman setEditMapped
                                setEditHuman setEditId].
    pose proof (trim_padded "" (MappingRow.mapped_field_name r) ""
                            eq_refl eq_refl Ht) as Htrim.
    cbn [append] in Htrim.
    assert (forall s : string, (s ++ "")%string = s) as Happ
        by (induction s as [|c s IH]; simpl; [reflexivity | now rewrite IH]).
    rewrite Happ in Htrim. rewrite Htrim, (tight_truthy _ Ht). reflexivity.
  - intros Hv. destruct r. simpl in *. rewrite Hv. reflexivity.
Qed.

(** X25.  The CSV text determines the exported values: two lists of
    rows with the same text have the same cells, row by row, whatever
    commas, quotes or line feeds the values contain. *)
Theorem csv_text_injective (rows1 rows2 : list MappingRow.t) :
  csv_text rows1 = csv_text rows2 ->
  map cells rows1 = map cells rows2.
Proof.
  intros Heq.
  assert (forall rows : list MappingRow.t,
             read_csv (csv_text rows) = Some (header :: map cells rows))
    as Hread.
  { intros rows. unfold csv_text. apply read_table; [discriminate|].
    constructor; [discriminate|].
    apply Forall_forall. intros cols Hin.
    apply in_map_iff in Hin as (r & <- & _). discriminate. }
  pose proof (Hread rows1) as H1. rewrite Heq, (Hread rows2) in H1.
  inversion H1. reflexivity.
Qed.

End MoreListPageProperties.

(* ================================================================== *)
(** ** The model run on the sample host *)

Section SampleRuns.
Import MapFromJsonPage Samples.
#[local] Existing Instance SampleHost.host.

(** §8, property 5. *)
Example extract_spec_example :
  option_map extractFieldPaths_default
             (SampleHost.parse (json_text "{'a':{'b':1},'c':2}"))
  = Some ["a"; "a.b"; "c"].
Proof. vm_compute. reflexivity. Qed.

(** With the default maximum 2 the keys read at depth 0, 1 and 2 are
    listed, so a path may have three segments; [a.b.c.d] is not. *)
Example extract_depth_example :
  SampleHost.parse (json_text "{'a':{'b':{'c':{'d':1}}},'e':2}")
  = Some nested_doc
  /\ extractFieldPaths_default nested_doc = ["a"; "a.b"; "a.b.c"; "e"].
Proof. vm_compute. split; reflexivity. Qed.

(** A key with a dot is listed as it is, and [getByPath] splits it. *)
Example dotted_key_example :
  fst (buildBatchPayload false (pasted (json_text "{'a.b':5}")))
  = Some [BatchInputItem.mk "pan_traffic" "a.b" "field a.b"].
Proof. vm_compute. reflexivity. Qed.

Example malformed_example : SampleHost.parse "{not json" = None.
Proof. vm_compute. reflexivity. Qed.

Lemma extractFieldPaths_within_depth_witness :
  In "a.b.c" (extractFieldPaths nested_doc "" 0 2 [])
  /\ ~ In "a.b.c.d" (extractFieldPaths nested_doc "" 0 2 []).
Proof.
  split.
  - apply (proj1 (extractFieldPaths_within_depth (H := SampleHost.host)
                                                  nested_doc 2)
                 ["a"; "b"; "c"] (JObj [("d", JNum 1%Z)])).
    + repeat (first [ apply at_keys_last; simpl; tauto
                    | eapply at_keys_step; [simpl; left; reflexivity|] ]).
    + vm_compute. discriminate.
  - vm_compute. intuition discriminate.
Defined.

Lemma arrays_are_containers_witness :
  In "tags" (extractFieldPaths tagged_doc "" 0 2 [])
  /\ In "tags.1" (extractFieldPaths tagged_doc "" 0 2 []).
Proof.
  destruct (proj1 (proj2 (proj2 (arrays_are_containers
                                   (H := SampleHost.host) 2)))
                  tagged_doc ["tags"] [JStr "x"; JArr [JStr "y"]])
    as [Hown Hidx].
  - apply at_keys_last. simpl. tauto.
  - vm_compute. discriminate.
  - split; [exact Hown|].
    apply (Hidx 1 (JArr [JStr "y"])); [reflexivity|].
    vm_compute. discriminate.
Defined.

Lemma buildBatchPayload_inherited_property_witness :
  Js.trim (text (pasted two_docs_text)) <> ""
  /\ JSON_parse (text (pasted two_docs_text)) =
     Some (JArr [JObj [("a", JNum 1%Z)]; JObj [("toString", JNum 2%Z)]])
  /\ fst (buildBatchPayload false (pasted two_docs_text)) =
     Some [ BatchInputItem.mk "pan_traffic" "a" "sample value: 1";
            BatchInputItem.mk "pan_traffic" "toString"
              "sample value: function toString() { [native code] }" ].
Proof.
  assert (Js.trim (text (pasted two_docs_text)) <> "") as Hne
      by (vm_compute; discriminate).
  assert (JSON_parse (text (pasted two_docs_text)) =
          Some (JArr [JObj [("a", JNum 1%Z)]; JObj [("toString", JNum 2%Z)]]))
    as Hp by (vm_compute; reflexivity).
  split; [exact Hne|]. split; [exact Hp|].
  exact (proj1 (proj2 (buildBatchPayload_inherited_property
                         (H := SampleHost.host) (pasted two_docs_text)
                         1%Z 2%Z Hne Hp))).
Defined.


Lemma handleMap_replaces_results_witness :
  handleMap_begin (setResults [JNum 9%Z] (pasted (json_text "{'a':1}")))
  = (setLoading true (pasted (json_text "{'a':1}")),
     Some (mkPost "/map-batch" [("limit", "5"); ("model", "gpt-4o-mini")]
                  [BatchInputItem.mk "pan_traffic" "a" "sample value: 1"]))
  /\ results (handleMap
                (setResults [JNum 9%Z] (pasted (json_text "{'a':1}")))
                (Resolved (VJson (JObj [("results", JArr [JNum 1%Z; JNum 2%Z])]))))
     = [JNum 1%Z; JNum 2%Z].
Proof.
  assert (handleMap_begin
            (setResults [JNum 9%Z] (pasted (json_text "{'a':1}")))
          = (setLoading true (pasted (json_text "{'a':1}")),
             Some (mkPost "/map-batch"
                          [("limit", "5"); ("model", "gpt-4o-mini")]
                          [BatchInputItem.mk "pan_traffic" "a"
                                             "sample value: 1"])))
    as Hb by reflexivity.
  split; [exact Hb|].
  destruct (handleMap_replaces_results (H := SampleHost.host)
              (pasted "")
              (VJson (H := SampleHost.host)
                     (JObj [("results", JArr [JNum 1%Z; JNum 2%Z])])))
    as (Hres & _ & _ & Hrun).
  rewrite (proj2 (Hrun _ _ _ Hb)). exact Hres.
Defined.

Import MappingsListPage.

Lemma saveEdit_patches_matching_row_witness :
  saveEdit_begin 7%Z (editing " host.ip ") =
    (setSavingId (Some 7%Z) (editing " host.ip "),
     [Patch "/mappings/7" true "host.ip"],
     Some (mkPending 7%Z true "host.ip"))
  /\ items (fst (saveEdit_finish (mkPending 7%Z true "host.ip")
                                 PatchResolved (editing " host.ip ")))
     = [MappingRow.mk 7%Z "pan_traffic" "src_ip" "host.ip" ecs
                      (Some "direct match") (Some 1%Z)
                      "2024-01-01T00:00:00Z" (Some true);
        row2]
  /\ items (fst (saveEdit_finish (mkPending 7%Z true "host.ip")
                                 PatchRejected (editing " host.ip ")))
     = [row1; row2].
Proof.
  assert (saveEdit_begin 7%Z (editing " host.ip ") =
          (setSavingId (Some 7%Z) (editing " host.ip "),
           [Patch "/mappings/7" true "host.ip"],
           Some (mkPending 7%Z true "host.ip"))) as Hb
      by reflexivity.
  split; [exact Hb|].
  destruct (saveEdit_patches_matching_row (H := SampleHost.host)
              7%Z (editing " host.ip ") _ (editing " host.ip ") _ _ Hb)
    as (_ & _ & _ & _ & Hfail & _).
  split; [reflexivity | exact Hfail].
Defined.

Lemma saveEdit_blank_name_blocked_witness :
  Js.trim (editMapped (editing "   ")) = ""
  /\ saveEdit 7%Z (editing "   ") PatchResolved =
     (editing "   ", [Alert "Mapped Field cannot be empty."]).
Proof.
  assert (Js.trim (editMapped (editing "   ")) = "") as Hb
      by (vm_compute; reflexivity).
  split; [exact Hb|].
  exact (proj1 (proj2 (saveEdit_blank_name_blocked (H := SampleHost.host)
                         7%Z (editing "   ") PatchResolved Hb))).
Defined.

Lemma saveEdit_sends_trimmed_name_witness :
  saveEdit_begin 7%Z (editing "  host.ip ") =
    (setSavingId (Some 7%Z) (editing "  host.ip "),
     [Patch (Api.toPath ("/mappings/" ++ String_number 7%Z)) true "host.ip"],
     Some (mkPending 7%Z true "host.ip"))
  /\ editMapped (editing "  host.ip ") <> "host.ip".
Proof.
  destruct (saveEdit_sends_trimmed_name (H := SampleHost.host)
              7%Z (editing "  host.ip ") (editing "  host.ip ")
              "  " "host.ip" " " eq_refl eq_refl eq_refl eq_refl)
    as (Hb & _ & Hraw).
  split; [exact Hb|].
  apply Hraw. left. discriminate.
Defined.

Lemma load_404_not_implemented_witness :
  strict_eq 404%Z (number_of_nat 404) = true
  /\ notImplemented (fst (load (editing "") (rejected_with 404%Z))) = true
  /\ items (fst (load (editing "") (rejected_with 404%Z))) = [row1; row2].
Proof.
  assert (strict_eq (Host := SampleHost.host) 404%Z (number_of_nat 404) = true)
    as H404 by reflexivity.
  split; [exact H404|].
  destruct (load_404_not_implemented (H := SampleHost.host)
              (editing "") 404%Z H404) as (_ & _ & _ & Hflag & Hitems & _).
  split; [exact Hflag | exact Hitems].
Defined.


End SampleRuns.

Section MoreSampleRuns.
Import MapFromJsonPage Samples.
#[local] Existing Instance SampleHost.host.

Lemma extractFieldPaths_nothing_to_add_witness :
  extractFieldPaths (JStr "x") "p" 0 2 ["a"] = ["a"]
  /\ extractFieldPaths nested_doc "p" 3 2 ["a"] = ["a"].
Proof.
  split.
  - apply (extractFieldPaths_nothing_to_add (H := SampleHost.host)).
    left. reflexivity.
  - apply (extractFieldPaths_nothing_to_add (H := SampleHost.host)).
    right. reflexivity.
Defined.

Lemma extractFieldPaths_monotone_witness :
  (2 <= 5)%Z /\ In "a.b.c" (extractFieldPaths nested_doc "" 0 5 []).
Proof.
  split; [lia|].
  apply (extractFieldPaths_monotone (H := SampleHost.host)
           nested_doc "" 0 2 5 [] "a.b.c"); [lia|].
  vm_compute. tauto.
Defined.


Lemma getByPath_finds_extracted_witness :
  getByPath (VJson nested_doc) "a.b" =
  VJson (JObj [("c", JObj [("d", JNum 1%Z)])])
  /\ In "a.b" (extractFieldPaths_default nested_doc).
Proof.
  destruct (getByPath_finds_extracted (H := SampleHost.host)
              nested_doc (JObj [("c", JObj [("d", JNum 1%Z)])]) "a" ["b"])
    as [Hget Hin].
  - discriminate.
  - repeat constructor.
  - reflexivity.
  - split; [exact Hget|]. apply Hin. vm_compute. discriminate.
Defined.

Lemma describe_own_witness :
  describe nested_doc "e" = "sample value: 2"
  /\ describe nested_doc "a.b" = "field a.b"
  /\ describe nested_doc "zz" = "field zz".
Proof.
  split; [|split].
  - apply (describe_own (H := SampleHost.host) nested_doc "e");
      [reflexivity | exact I].
  - apply (describe_own (H := SampleHost.host) nested_doc "a.b");
      [reflexivity | exact I].
  - apply (describe_own (H := SampleHost.host) nested_doc "zz");
      [reflexivity | reflexivity].
Defined.

Lemma buildBatchPayload_blank_witness :
  Js.trim (text (pasted "   ")) = ""
  /\ buildBatchPayload false (pasted "   ") = (None, pasted "   ").
Proof.
  split; [reflexivity|].
  apply (buildBatchPayload_blank (H := SampleHost.host)). reflexivity.
Defined.


Lemma buildBatchPayload_union_witness :
  exists payload,
    buildBatchPayload true (pasted two_docs_text)
    = (Some payload, pasted two_docs_text)
    /\ map BatchInputItem.field payload = ["a"; "toString"].
Proof.
  destruct (buildBatchPayload_union (H := SampleHost.host) true
              (pasted two_docs_text)
              [JObj [("a", JNum 1%Z)]; JObj [("toString", JNum 2%Z)]]
              (JObj [("a", JNum 1%Z)]) [JObj [("toString", JNum 2%Z)]])
    as (payload & Hb & _).
  - vm_compute. discriminate.
  - vm_compute. reflexivity.
  - reflexivity.
  - exists payload. split; [exact Hb|].
    assert (fst (buildBatchPayload true (pasted two_docs_text))
            = Some payload) as Hf by (rewrite Hb; reflexivity).
    vm_compute in Hf. inversion Hf. reflexivity.
Defined.

Lemma buildBatchPayload_first_document_first_witness :
  exists payload added,
    buildBatchPayload false (pasted two_docs_text)
    = (Some payload, pasted two_docs_text)
    /\ map BatchInputItem.field payload = ["a"] ++ added.
Proof.
  apply (buildBatchPayload_first_document_first (H := SampleHost.host) false
           (pasted two_docs_text)
           (JArr [JObj [("a", JNum 1%Z)]; JObj [("toString", JNum 2%Z)]])
           (JObj [("a", JNum 1%Z)]) [JObj [("toString", JNum 2%Z)]]).
  - vm_compute. discriminate.
  - vm_compute. reflexivity.
  - reflexivity.
Defined.

Lemma buildBatchPayload_single_object_witness :
  buildBatchPayload false (pasted "{}") = (Some [], pasted "{}").
Proof.
  assert (Js.trim (text (pasted "{}")) <> "") as Hne
      by (vm_compute; discriminate).
  assert (JSON_parse (text (pasted "{}")) = Some (JObj [])) as Hp
      by (vm_compute; reflexivity).
  exact (proj2 (buildBatchPayload_single_object (H := SampleHost.host) false
                  (pasted "{}") [] Hne Hp) eq_refl).
Defined.

End MoreSampleRuns.

Section MoreTableRuns.
Import MappingsListPage Samples.
#[local] Existing Instance SampleHost.host.

Lemma filtered_case_insensitive_witness :
  filtered (mkState [row1; row2] "IP" 1%Z 20%Z 2%Z false false
                    None None false "")
  = filtered (mkState [row1; row2] "ip" 1%Z 20%Z 2%Z false false
                      None None false "")
  /\ filtered (mkState [row1; row2] "IP" 1%Z 20%Z 2%Z false false
                       None None false "") = [row1].
Proof.
  split.
  - apply (filtered_case_insensitive (H := SampleHost.host)); reflexivity.
  - reflexivity.
Defined.

Lemma saveEdit_name_is_tight_witness :
  saveEdit_begin 7%Z (editing "  host.ip ") =
    (setSavingId (Some 7%Z) (editing "  host.ip "),
     [Patch "/mappings/7" true "host.ip"],
     Some (mkPending 7%Z true "host.ip"))
  /\ tight "host.ip" = true.
Proof.
  assert (saveEdit_begin 7%Z (editing "  host.ip ") =
          (setSavingId (Some 7%Z) (editing "  host.ip "),
           [Patch "/mappings/7" true "host.ip"],
           Some (mkPending 7%Z true "host.ip"))) as Hb by reflexivity.
  split; [exact Hb|].
  exact (proj1 (saveEdit_name_is_tight (H := SampleHost.host)
                  7%Z (editing "  host.ip ") _ _ _ Hb)).
Defined.

Lemma saveEdit_untouched_row_witness :
  tight (MappingRow.mapped_field_name row2) = true
  /\ patch_row (mkPending 8%Z true "custom.say") row2 = row2.
Proof.
  split; [reflexivity|].
  destruct (saveEdit_untouched_row (H := SampleHost.host) row2 (editing "")
              eq_refl) as (b & Hb & _ & Hsame).
  subst b. apply Hsame. reflexivity.
Defined.

Lemma csv_text_injective_witness :
  csv_text [row2] = csv_text [row2]
  /\ map cells [row2] = map cells [row2].
Proof.
  split; [reflexivity|].
  apply (csv_text_injective (H := SampleHost.host)). reflexivity.
Defined.

End MoreTableRuns.
